(** * Penn TotalRecall: the FMOD playback library (libpenntotalrecall.c)

    A shallow embedding of [src/native/fmod/src/libpenntotalrecall.c] and the
    properties of its playback state machine.

    The C file keeps its session in global variables and talks to the FMOD
    engine through calls that return a result code and write out-parameters.
    Here the globals are a record that is threaded through a small state
    monad, and the engine is an oracle: a function from the log of the calls
    made so far and the current call to the reply of that call.  Every run of
    the C code against any engine is the run of the model against the oracle
    that gives the same replies, because the log grows with every call.

    Diagnostics written to stderr are not modelled. *)

From Stdlib Require Import ZArith List String Bool Lia.
From Stdlib Require Import Floats.SpecFloat.
From Stdlib Require Import QArith Qpower Lqa.
Import ListNotations.
Local Open Scope Z_scope.

(** ** C integer types *)

Module CInt.

Definition two32 : Z := 2 ^ 32.
Definition INT_MIN : Z := - 2 ^ 31.
Definition INT_MAX : Z := 2 ^ 31 - 1.

(** Conversion to [unsigned int]: reduction modulo 2^32. *)
Definition to_uint32 (z : Z) : Z := z mod two32.

(** Conversion to [int]: the value modulo 2^32 taken in [-2^31, 2^31)
    (what gcc, clang and MSVC do for an out-of-range value). *)
Definition to_int32 (z : Z) : Z := (z + 2 ^ 31) mod two32 - 2 ^ 31.

Definition uint32_range (z : Z) : Prop := 0 <= z < two32.
Definition int32_range (z : Z) : Prop := INT_MIN <= z <= INT_MAX.

End CInt.
Import CInt.

(** ** IEEE-754 arithmetic of line 169

    [float] is binary32 and [double] is binary64; the operations are the ones
    of the Standard Library's executable specification, rounding to nearest
    even (the evaluation of an x86-64 or ARM64 build). *)

Module CDouble.

Definition prec64 : Z := 53.
Definition emax64 : Z := 1024.
Definition prec32 : Z := 24.
Definition emax32 : Z := 128.

(** Conversion of an integer ([int] or [long long]) to [double]. *)
Definition double_of_Z (z : Z) : spec_float :=
  binary_normalize prec64 emax64 z 0 false.

(** The [float] with an integer value, e.g. a sample rate of 44100 Hz. *)
Definition float_of_Z (z : Z) : spec_float :=
  binary_normalize prec32 emax32 z 0 false.

(** The cast [(double) x] of a [float]: exact, only the representation is
    aligned to 53 bits. *)
Definition double_of_float (x : spec_float) : spec_float :=
  match x with
  | S754_finite s m e => binary_round prec64 emax64 s m e
  | _ => x
  end.

Definition ddiv (x y : spec_float) : spec_float := SFdiv prec64 emax64 x y.
Definition dmul (x y : spec_float) : spec_float := SFmul prec64 emax64 x y.

(** The cast [(int) x] of a [double]: truncation toward zero.  C leaves the
    cast undefined when the truncated value does not fit an [int] (or [x]
    is infinite or not a number); the model returns [INT_MIN] there, the
    value the x86-64 conversion instruction produces. *)
Definition int_of_double (x : spec_float) : Z :=
  match x with
  | S754_zero _ => 0
  | S754_finite s m e =>
      let mag := match e with
                 | Zneg p => Z.shiftr (Zpos m) (Zpos p)
                 | _ => Z.shiftl (Zpos m) e
                 end in
      let z := if s then - mag else mag in
      if (INT_MIN <=? z) && (z <=? INT_MAX) then z else INT_MIN
  | _ => INT_MIN
  end.

End CDouble.
Import CDouble.

(** ** The FMOD interface used by the library

    The header [fmod.h] is not among the sources: the result codes, the
    structure and the calls below are the ones the C file names, with the
    types of the FMOD header. *)

Definition handle : Type := Z.
Definition NULL : handle := 0.

Inductive FMOD_RESULT : Type :=
| FMOD_OK
| FMOD_ERR_CHANNEL_STOLEN
| FMOD_ERR_INVALID_HANDLE
| FMOD_ERR_OTHER (code : positive).

Definition FMOD_RESULT_eqb (a b : FMOD_RESULT) : bool :=
  match a, b with
  | FMOD_OK, FMOD_OK => true
  | FMOD_ERR_CHANNEL_STOLEN, FMOD_ERR_CHANNEL_STOLEN => true
  | FMOD_ERR_INVALID_HANDLE, FMOD_ERR_INVALID_HANDLE => true
  | FMOD_ERR_OTHER n, FMOD_ERR_OTHER m => Pos.eqb n m
  | _, _ => false
  end.

Declare Scope fmod_scope.
Delimit Scope fmod_scope with fmod.
Notation "a != b" := (negb (FMOD_RESULT_eqb a b)) (at level 70) : fmod_scope.

(** The time units: PCM frames, the one the library uses, and the zero value
    of a structure that has not been filled in. *)
Inductive FMOD_TIMEUNIT : Type :=
| FMOD_TIMEUNIT_NONE
| FMOD_TIMEUNIT_PCM.

(** Modelled from the spec: the structure [FMOD_CREATESOUNDEXINFO] of
    [fmod.h], which is not among the sources.  The spec opens the stream with
    an initial seek position in source-frame units; these are the two seek
    fields the library sets, [initialseekposition] being an [unsigned int].
    [cbsize] is the constant size of the structure and [memset] zeroes the
    other fields; they are left out. *)
Record FMOD_CREATESOUNDEXINFO : Type := mkExInfo {
  initialseekposition : Z;
  initialseekpostype : FMOD_TIMEUNIT
}.

Definition zero_exinfo : FMOD_CREATESOUNDEXINFO := mkExInfo 0 FMOD_TIMEUNIT_NONE.

(** The calls the library makes, each with the arguments that vary. *)
Inductive FMOD_call : Type :=
| FMOD_System_Create
| FMOD_System_Init (sys : handle) (maxchannels : Z)
| FMOD_System_CreateSound (sys : handle) (name : string)
    (exinfo : FMOD_CREATESOUNDEXINFO)
| FMOD_Sound_GetDefaults (sd : handle)
| FMOD_System_PlaySound (sys sd : handle) (paused : Z)
| FMOD_System_GetDSPBufferSize (sys : handle)
| FMOD_System_GetSoftwareFormat (sys : handle)
| FMOD_System_GetDSPClock (sys : handle)
| FMOD_Channel_SetDelay (ch : handle) (hi lo : Z) (delaytype : Z)
| FMOD_Channel_SetVolume (ch : handle)
| FMOD_Channel_SetPaused (ch : handle) (paused : Z)
| FMOD_System_Update (sys : handle)
| FMOD_Channel_GetPosition (ch : handle)
| FMOD_Channel_IsPlaying (ch : handle)
| FMOD_Sound_Release (sd : handle)
| FMOD_System_Close (sys : handle)
| FMOD_System_Release (sys : handle).

(** What a call gives back: the result code and what the engine writes
    through the out-pointers.  An out-parameter that the engine may leave
    untouched is an [option]. *)
Definition Reply (c : FMOD_call) : Type :=
  match c with
  | FMOD_System_Create => FMOD_RESULT * option handle
  | FMOD_System_CreateSound _ _ _ => FMOD_RESULT * option handle
  | FMOD_Sound_GetDefaults _ => FMOD_RESULT * spec_float
  | FMOD_System_PlaySound _ _ _ => FMOD_RESULT * option handle
  | FMOD_System_GetDSPBufferSize _ => FMOD_RESULT * Z
  | FMOD_System_GetSoftwareFormat _ => FMOD_RESULT * Z
  | FMOD_System_GetDSPClock _ => FMOD_RESULT * (Z * Z)
  | FMOD_Channel_GetPosition _ => FMOD_RESULT * option Z
  | FMOD_Channel_IsPlaying _ => FMOD_RESULT * option Z
  | _ => FMOD_RESULT
  end%type.

(** The engine: the reply to a call, given the calls made before it
    (newest first). *)
Definition Engine : Type := list FMOD_call -> forall c : FMOD_call, Reply c.

(** Modelled from the spec: the macro [FMOD_64BIT_ADD] of [fmod.h], which is
    not among the sources.  The spec computes [nowClock + delay] on a 64-bit
    tick counter held as a pair of 32-bit words; the macro adds the low
    words and carries into the high word. *)
Definition FMOD_64BIT_ADD (hi1 lo1 hi2 lo2 : Z) : Z * Z :=
  let carry := if to_uint32 (lo1 + lo2) <? lo1 then 1 else 0 in
  (to_uint32 (hi1 + to_uint32 (hi2 + carry)), to_uint32 (lo1 + lo2)).

(** ** The globals of the library *)

Inductive PlaybackState : Type :=
| STATE_UNINITIALIZED
| STATE_SYSTEM_CREATED
| STATE_SYSTEM_INITIALIZED
| STATE_SOUND_LOADED
| STATE_PLAYING
| STATE_ERROR.

(** The value of an enumerator, used by the comparisons [<] and [>=]. *)
Definition state_rank (st : PlaybackState) : Z :=
  match st with
  | STATE_UNINITIALIZED => 0
  | STATE_SYSTEM_CREATED => 1
  | STATE_SYSTEM_INITIALIZED => 2
  | STATE_SOUND_LOADED => 3
  | STATE_PLAYING => 4
  | STATE_ERROR => 5
  end.

Definition PlaybackState_eqb (a b : PlaybackState) : bool :=
  state_rank a =? state_rank b.

(** [calls] is not a variable of the program: it logs the engine calls. *)
Record Session : Type := mkSession {
  fmsystem : handle;
  sound : handle;
  channel : handle;
  soundInfo : FMOD_CREATESOUNDEXINFO;
  lastStartFrame : Z;
  currentState : PlaybackState;
  calls : list FMOD_call
}.

Definition revisionNumber : Z := 2.
Definition libName : string :=
  "FMOD Core implementation of LibPennTotalRecall"%string.

(** The globals as their initialisers leave them. *)
Definition initial_session : Session :=
  mkSession NULL NULL NULL zero_exinfo 0 STATE_UNINITIALIZED [].

(** ** A state monad over the session *)

Definition M (A : Type) : Type := Session -> A * Session.

Definition ret {A : Type} (a : A) : M A := fun s => (a, s).

Definition bind {A B : Type} (m : M A) (k : A -> M B) : M B :=
  fun s => let (a, s') := m s in k a s'.

Declare Scope monad_scope.
Delimit Scope monad_scope with monad.
Notation "x <- c ;; k" := (bind c (fun x => k))
  (at level 61, c at next level, right associativity) : monad_scope.
Notation "' pat <- c ;; k" := (bind c (fun x => match x with pat => k end))
  (at level 61, pat pattern, c at next level, right associativity) : monad_scope.
Notation "c ;; k" := (bind c (fun _ => k))
  (at level 61, right associativity) : monad_scope.
Local Open Scope monad_scope.

Definition get {A : Type} (field : Session -> A) : M A := fun s => (field s, s).

Definition set_fmsystem (v : handle) : M unit := fun s =>
  (tt, mkSession v (sound s) (channel s) (soundInfo s) (lastStartFrame s)
         (currentState s) (calls s)).
Definition set_sound (v : handle) : M unit := fun s =>
  (tt, mkSession (fmsystem s) v (channel s) (soundInfo s) (lastStartFrame s)
         (currentState s) (calls s)).
Definition set_channel (v : handle) : M unit := fun s =>
  (tt, mkSession (fmsystem s) (sound s) v (soundInfo s) (lastStartFrame s)
         (currentState s) (calls s)).
Definition set_soundInfo (v : FMOD_CREATESOUNDEXINFO) : M unit := fun s =>
  (tt, mkSession (fmsystem s) (sound s) (channel s) v (lastStartFrame s)
         (currentState s) (calls s)).
Definition set_lastStartFrame (v : Z) : M unit := fun s =>
  (tt, mkSession (fmsystem s) (sound s) (channel s) (soundInfo s) v
         (currentState s) (calls s)).
Definition set_currentState (v : PlaybackState) : M unit := fun s =>
  (tt, mkSession (fmsystem s) (sound s) (channel s) (soundInfo s)
         (lastStartFrame s) v (calls s)).

(** The value of a variable after the engine was given a pointer to it. *)
Definition written {A : Type} (out : option A) (old : A) : A :=
  match out with
  | Some v => v
  | None => old
  end.

(** Passing the address of a global handle as an out-parameter. *)
Definition store (field : Session -> handle) (setter : handle -> M unit)
    (out : option handle) : M unit :=
  old <- get field ;;
  setter (written out old).

(** ** The library *)

Section Library.

Variable fmod : Engine.

(** A call to the engine: the reply comes from the oracle and the call is
    logged. *)
Definition call (c : FMOD_call) : M (Reply c) := fun s =>
  (fmod (calls s) c,
   mkSession (fmsystem s) (sound s) (channel s) (soundInfo s)
     (lastStartFrame s) (currentState s) (c :: calls s)).

(** [cleanupResources], lines 278-311. *)
Definition cleanupResources : M unit :=
  sd <- get sound ;;
  (if negb (sd =? NULL) then
     _ <- call (FMOD_Sound_Release sd) ;;
     set_sound NULL
   else ret tt) ;;
  sys <- get fmsystem ;;
  (if negb (sys =? NULL) then
     _ <- call (FMOD_System_Close sys) ;;
     _ <- call (FMOD_System_Release sys) ;;
     set_fmsystem NULL
   else ret tt) ;;
  set_channel NULL ;;
  set_lastStartFrame 0 ;;
  set_currentState STATE_UNINITIALIZED.

(** [validateState], lines 313-340. *)
Definition validateState (expected : PlaybackState) : M Z :=
  st <- get currentState ;;
  if state_rank st <? state_rank expected then ret 0 else
  sys <- get fmsystem ;;
  if (state_rank expected >=? state_rank STATE_SYSTEM_CREATED) && (sys =? NULL)
  then set_currentState STATE_ERROR ;; ret 0 else
  sd <- get sound ;;
  if (state_rank expected >=? state_rank STATE_SOUND_LOADED) && (sd =? NULL)
  then set_currentState STATE_ERROR ;; ret 0 else
  ch <- get channel ;;
  if (state_rank expected >=? state_rank STATE_PLAYING) && (ch =? NULL)
  then set_currentState STATE_ERROR ;; ret 0 else
  ret 1.

(** The right-hand side of line 169:
    [startDelayFrames + (int) (outputRate * ((endFrame - startFrame) / (double)(inputRate)))]
    with [unsigned int startDelayFrames], [int outputRate],
    [float inputRate] and [long long] frames; the sum is an
    [unsigned int]. *)
Definition stopDelay (startDelayFrames outputRate : Z) (inputRate : spec_float)
    (startFrame endFrame : Z) : Z :=
  to_uint32
    (startDelayFrames +
     int_of_double
       (dmul (double_of_Z outputRate)
             (ddiv (double_of_Z (endFrame - startFrame))
                   (double_of_float inputRate)))).

(** The test that a result is none of [FMOD_OK], [FMOD_ERR_INVALID_HANDLE]
    and [FMOD_ERR_CHANNEL_STOLEN] (lines 185, 193, 235, 254). *)
Definition exceptional (result : FMOD_RESULT) : bool :=
  ((result != FMOD_OK) && (result != FMOD_ERR_INVALID_HANDLE)
   && (result != FMOD_ERR_CHANNEL_STOLEN))%fmod.

(** [startPlayback], lines 65-203. *)
Definition startPlayback (filename : string) (startFrame endFrame : Z) : M Z :=
  st <- get currentState ;;
  (if negb (PlaybackState_eqb st STATE_UNINITIALIZED)
   then cleanupResources else ret tt) ;;
  let startFrame := if startFrame <? 0 then 0 else startFrame in
  if endFrame <=? startFrame then cleanupResources ;; ret (-1) else
  set_lastStartFrame (to_int32 startFrame) ;;
  '(result, out) <- call FMOD_System_Create ;;
  store fmsystem set_fmsystem out ;;
  if (result != FMOD_OK)%fmod then cleanupResources ;; ret (-1) else
  set_currentState STATE_SYSTEM_CREATED ;;
  sys <- get fmsystem ;;
  result <- call (FMOD_System_Init sys 32) ;;
  if (result != FMOD_OK)%fmod then cleanupResources ;; ret (-1) else
  set_currentState STATE_SYSTEM_INITIALIZED ;;
  set_soundInfo (mkExInfo (to_uint32 startFrame) FMOD_TIMEUNIT_PCM) ;;
  info <- get soundInfo ;;
  '(result, out) <- call (FMOD_System_CreateSound sys filename info) ;;
  store sound set_sound out ;;
  if (result != FMOD_OK)%fmod then cleanupResources ;; ret (-3) else
  set_currentState STATE_SOUND_LOADED ;;
  sd <- get sound ;;
  '(result, inputRate) <- call (FMOD_Sound_GetDefaults sd) ;;
  if (result != FMOD_OK)%fmod then cleanupResources ;; ret (-3) else
  '(result, out) <- call (FMOD_System_PlaySound sys sd 1) ;;
  store channel set_channel out ;;
  if (result != FMOD_OK)%fmod then cleanupResources ;; ret (-1) else
  set_currentState STATE_PLAYING ;;
  '(result, bufferlength) <- call (FMOD_System_GetDSPBufferSize sys) ;;
  if (result != FMOD_OK)%fmod then cleanupResources ;; ret (-1) else
  let startDelayFrames := to_uint32 (to_uint32 bufferlength * 2) in
  '(result, rate) <- call (FMOD_System_GetSoftwareFormat sys) ;;
  if (result != FMOD_OK)%fmod then cleanupResources ;; ret (-1) else
  let outputRate := to_int32 rate in
  '(_, (hi, lo)) <- call (FMOD_System_GetDSPClock sys) ;;
  let hitime := to_uint32 hi in
  let lotime := to_uint32 lo in
  let '(hiclock, loclock) := FMOD_64BIT_ADD hitime lotime 0 startDelayFrames in
  ch <- get channel ;;
  result <- call (FMOD_Channel_SetDelay ch hiclock loclock 1) ;;
  if (result != FMOD_OK)%fmod then cleanupResources ;; ret (-1) else
  let endDelayFrames :=
    stopDelay startDelayFrames outputRate inputRate startFrame endFrame in
  let '(hiclock, loclock) := FMOD_64BIT_ADD hitime lotime 0 endDelayFrames in
  result <- call (FMOD_Channel_SetDelay ch hiclock loclock 0) ;;
  if (result != FMOD_OK)%fmod then cleanupResources ;; ret (-1) else
  result <- call (FMOD_Channel_SetVolume ch) ;;
  if exceptional result then cleanupResources ;; ret (-1) else
  result <- call (FMOD_Channel_SetPaused ch 0) ;;
  if exceptional result then cleanupResources ;; ret (-1) else
  _ <- call (FMOD_System_Update sys) ;;
  ret 0.

(** [streamPosition], lines 223-242.  [frames] starts at 0; the subtraction
    [frames - lastStartFrame] is between an [unsigned int] and an [int], so
    it is done on [unsigned int], and the result is widened to
    [long long]. *)
Definition streamPosition : M Z :=
  ok <- validateState STATE_PLAYING ;;
  if ok =? 0 then ret (-1) else
  sys <- get fmsystem ;;
  _ <- call (FMOD_System_Update sys) ;;
  ch <- get channel ;;
  '(result, out) <- call (FMOD_Channel_GetPosition ch) ;;
  let frames := to_uint32 (written out 0) in
  if exceptional result then ret (-1) else
  lsf <- get lastStartFrame ;;
  ret (to_uint32 (frames - lsf)).

(** [stopPlayback], lines 205-221. *)
Definition stopPlayback : M Z :=
  st <- get currentState ;;
  if PlaybackState_eqb st STATE_UNINITIALIZED then ret 0 else
  ch <- get channel ;;
  toReturn <-
    (if (state_rank st >=? state_rank STATE_PLAYING) && negb (ch =? NULL)
     then streamPosition else ret 0) ;;
  cleanupResources ;;
  ret toReturn.

(** [playbackInProgress], lines 244-261.  [playing] starts at 0. *)
Definition playbackInProgress : M Z :=
  st <- get currentState ;;
  ch <- get channel ;;
  if (state_rank st <? state_rank STATE_PLAYING) || (ch =? NULL) then ret 0 else
  '(result, out) <- call (FMOD_Channel_IsPlaying ch) ;;
  let playing := to_int32 (written out 0) in
  if exceptional result then ret 0 else
  ret playing.

Definition getLibraryRevisionNumber : M Z := ret (to_int32 revisionNumber).
Definition getLibraryName : M string := ret libName.

(** *** The operations a caller can invoke, and the sessions they reach *)

Inductive Operation : Type :=
| OpStart (filename : string) (startFrame endFrame : Z)
| OpStop
| OpPosition
| OpInProgress.

Definition exec (o : Operation) (s : Session) : Session :=
  match o with
  | OpStart f a b => snd (startPlayback f a b s)
  | OpStop => snd (stopPlayback s)
  | OpPosition => snd (streamPosition s)
  | OpInProgress => snd (playbackInProgress s)
  end.

Inductive reachable : Session -> Prop :=
| reach_init : reachable initial_session
| reach_step : forall o s, reachable s -> reachable (exec o s).

End Library.

(** ** Concrete engines, for the examples *)

(** An engine on which every call succeeds: handles 1, 2 and 3, a file of
    [fileRate] Hz, an output of [outRate] Hz with a buffer of 1024 frames, the
    clock at 1000 ticks and the channel at frame [pos]. *)
Definition good_engine (fileRate outRate pos : Z) : Engine := fun log c =>
  match c return Reply c with
  | FMOD_System_Create => (FMOD_OK, Some 1)
  | FMOD_System_Init _ _ => FMOD_OK
  | FMOD_System_CreateSound _ _ _ => (FMOD_OK, Some 2)
  | FMOD_Sound_GetDefaults _ => (FMOD_OK, float_of_Z fileRate)
  | FMOD_System_PlaySound _ _ _ => (FMOD_OK, Some 3)
  | FMOD_System_GetDSPBufferSize _ => (FMOD_OK, 1024)
  | FMOD_System_GetSoftwareFormat _ => (FMOD_OK, outRate)
  | FMOD_System_GetDSPClock _ => (FMOD_OK, (0, 1000))
  | FMOD_Channel_SetDelay _ _ _ _ => FMOD_OK
  | FMOD_Channel_SetVolume _ => FMOD_OK
  | FMOD_Channel_SetPaused _ _ => FMOD_OK
  | FMOD_System_Update _ => FMOD_OK
  | FMOD_Channel_GetPosition _ => (FMOD_OK, Some pos)
  | FMOD_Channel_IsPlaying _ => (FMOD_OK, Some 1)
  | FMOD_Sound_Release _ => FMOD_OK
  | FMOD_System_Close _ => FMOD_OK
  | FMOD_System_Release _ => FMOD_OK
  end.


(** An engine that cannot even be created. *)
Definition dead_engine : Engine := fun log c =>
  match c return Reply c with
  | FMOD_System_Create => (FMOD_ERR_OTHER 1, None)
  | c' => good_engine 44100 48000 0 log c'
  end.

(** An engine that cannot open the file. *)
Definition fileless_engine : Engine := fun log c =>
  match c return Reply c with
  | FMOD_System_CreateSound _ _ _ => (FMOD_ERR_OTHER 1, None)
  | c' => good_engine 44100 48000 0 log c'
  end.

Definition song : string := "song.wav"%string.

(** An engine whose channel has finished: its handle is no longer valid and
    the queries leave their out-parameters untouched. *)
Definition finished_engine : Engine := fun log c =>
  match c return Reply c with
  | FMOD_Channel_GetPosition _ => (FMOD_ERR_INVALID_HANDLE, None)
  | FMOD_Channel_IsPlaying _ => (FMOD_ERR_INVALID_HANDLE, None)
  | c' => good_engine 44100 48000 0 log c'
  end.

(** The session after a successful start on [song]. *)
Definition started (fmod : Engine) (startFrame endFrame : Z) : Session :=
  snd (startPlayback fmod song startFrame endFrame initial_session).

(** * The vocabulary of the properties *)

(** A session that teardown has reset. *)
Definition torn_down (s : Session) : Prop :=
  fmsystem s = NULL /\ sound s = NULL /\ channel s = NULL /\
  lastStartFrame s = 0 /\ currentState s = STATE_UNINITIALIZED.

(** The release calls, the only ones teardown makes. *)
Definition is_release (c : FMOD_call) : bool :=
  match c with
  | FMOD_Sound_Release _ | FMOD_System_Close _ | FMOD_System_Release _ => true
  | _ => false
  end.

(** The most recent call that is not a release: on a failed start, the call
    that failed (teardown only releases). *)
Definition last_attempt (new : list FMOD_call) : option FMOD_call :=
  find (fun c => negb (is_release c)) new.

(** The two calls of the stream stage: opening the file and asking for its
    format. *)
Definition is_stream_call (c : FMOD_call) : bool :=
  match c with
  | FMOD_System_CreateSound _ _ _ | FMOD_Sound_GetDefaults _ => true
  | _ => false
  end.

(** During the run that extended the log [old] by [new], the call [c] was
    made and the engine replied [r]. *)
Definition answered (fmod : Engine) (old new : list FMOD_call)
    (c : FMOD_call) (r : Reply c) : Prop :=
  exists after before, new = after ++ c :: before /\ fmod (before ++ old) c = r.

(** A creating call that reports [FMOD_OK] has written a handle that is not
    null. *)
Definition engine_contract (fmod : Engine) : Prop :=
  (forall log out,
     fmod log FMOD_System_Create = (FMOD_OK, out) ->
     exists h, out = Some h /\ h <> NULL) /\
  (forall log sys name info out,
     fmod log (FMOD_System_CreateSound sys name info) = (FMOD_OK, out) ->
     exists h, out = Some h /\ h <> NULL) /\
  (forall log sys sd paused out,
     fmod log (FMOD_System_PlaySound sys sd paused) = (FMOD_OK, out) ->
     exists h, out = Some h /\ h <> NULL).

(** The classes of a failed start, by the call that failed; none for a range
    error, which fails before any call is attempted. *)
Inductive FailureClass : Type :=
| RangeError
| EngineError
| StreamError.

Definition failure_class (new : list FMOD_call) : FailureClass :=
  match last_attempt new with
  | None => RangeError
  | Some c => if is_stream_call c then StreamError else EngineError
  end.

(** The status [startPlayback] returns for each class (lines 85, 95, 104,
    118, 127, 135, 144, 153, 166, 180, 189 and 197). *)
Definition status_of (k : FailureClass) : Z :=
  match k with
  | RangeError => -1
  | EngineError => -1
  | StreamError => -3
  end.

(** The invariant of the spec: no sound without a system, no channel without
    a sound.  A handle counts as present when it is not null, which is how
    the code tests it (lines 215, 249, 283, 292, 321, 327 and 333). *)
Definition handles_inv (s : Session) : Prop :=
  (sound s <> NULL -> fmsystem s <> NULL) /\
  (channel s <> NULL -> sound s <> NULL).

(** Between two operations the state is [STATE_UNINITIALIZED] or
    [STATE_PLAYING], or [STATE_ERROR] with a handle missing. *)
Definition settled (s : Session) : Prop :=
  match currentState s with
  | STATE_UNINITIALIZED | STATE_PLAYING => True
  | STATE_ERROR => fmsystem s = NULL \/ sound s = NULL \/ channel s = NULL
  | _ => False
  end.

(** [validateState STATE_PLAYING] passes. *)
Definition playing_valid (s : Session) : Prop :=
  state_rank STATE_PLAYING <= state_rank (currentState s) /\
  fmsystem s <> NULL /\ sound s <> NULL /\ channel s <> NULL.

(** The calls teardown makes on a session, newest first: the sound is
    released, then the system is closed and released (lines 283-305). *)
Definition release_calls (s : Session) : list FMOD_call :=
  (if fmsystem s =? NULL then []
   else [FMOD_System_Release (fmsystem s); FMOD_System_Close (fmsystem s)]) ++
  (if sound s =? NULL then [] else [FMOD_Sound_Release (sound s)]).

(** The handles a given expected state requires (lines 321, 327 and 333). *)
Definition required_present (expected : PlaybackState) (s : Session) : Prop :=
  (state_rank STATE_SYSTEM_CREATED <= state_rank expected -> fmsystem s <> NULL) /\
  (state_rank STATE_SOUND_LOADED <= state_rank expected -> sound s <> NULL) /\
  (state_rank STATE_PLAYING <= state_rank expected -> channel s <> NULL).

(** A session in [STATE_PLAYING] as a successful start leaves it: the three
    handles present, and the recorded start offset and the seek position
    given to the engine equal modulo 2^32. *)
Definition playing (s : Session) : Prop :=
  currentState s = STATE_PLAYING /\
  fmsystem s <> NULL /\ sound s <> NULL /\ channel s <> NULL /\
  int32_range (lastStartFrame s) /\
  initialseekposition (soundInfo s) = to_uint32 (lastStartFrame s).

(** An engine on which no call that [startPlayback] checks fails. *)
Definition healthy (fmod : Engine) : Prop :=
  (forall log, fst (fmod log FMOD_System_Create) = FMOD_OK) /\
  (forall log sys n, fmod log (FMOD_System_Init sys n) = FMOD_OK) /\
  (forall log sys name info,
     fst (fmod log (FMOD_System_CreateSound sys name info)) = FMOD_OK) /\
  (forall log sd, fst (fmod log (FMOD_Sound_GetDefaults sd)) = FMOD_OK) /\
  (forall log sys sd p,
     fst (fmod log (FMOD_System_PlaySound sys sd p)) = FMOD_OK) /\
  (forall log sys, fst (fmod log (FMOD_System_GetDSPBufferSize sys)) = FMOD_OK) /\
  (forall log sys, fst (fmod log (FMOD_System_GetSoftwareFormat sys)) = FMOD_OK) /\
  (forall log ch hi lo t, fmod log (FMOD_Channel_SetDelay ch hi lo t) = FMOD_OK) /\
  (forall log ch, exceptional (fmod log (FMOD_Channel_SetVolume ch)) = false) /\
  (forall log ch p, exceptional (fmod log (FMOD_Channel_SetPaused ch p)) = false).

(** An engine like [good_engine] whose channel was stolen: volume and pause
    report it, which [startPlayback] tolerates. *)
Definition stolen_engine : Engine := fun log c =>
  match c return Reply c with
  | FMOD_Channel_SetVolume _ => FMOD_ERR_CHANNEL_STOLEN
  | FMOD_Channel_SetPaused _ _ => FMOD_ERR_INVALID_HANDLE
  | c' => good_engine 44100 48000 0 log c'
  end.

(** An engine that plays but cannot schedule the stop. *)
Definition unscheduled_engine : Engine := fun log c =>
  match c return Reply c with
  | FMOD_Channel_SetDelay _ _ _ 0 => FMOD_ERR_OTHER 1
  | c' => good_engine 44100 48000 0 log c'
  end.

(** The rational value [m * 2 ^ e] of a double with mantissa [m] and
    exponent [e]. *)
Definition F2Q (m e : Z) : Q := (inject_Z m * 2 ^ e)%Q.

(** 2^-52, the relative error bound of one rounding to binary64. *)
Definition eps64 : Q := (1 # 4503599627370496)%Q.

(** * Properties *)

(** ** Integer conversions *)

Lemma to_uint32_range (z : Z) : 0 <= to_uint32 z < two32.
Proof. unfold to_uint32, two32. apply Z.mod_pos_bound. lia. Qed.

Lemma to_uint32_small (z : Z) : 0 <= z < two32 -> to_uint32 z = z.
Proof. unfold to_uint32. apply Z.mod_small. Qed.

Lemma to_int32_range (z : Z) : INT_MIN <= to_int32 z <= INT_MAX.
Proof.
  unfold to_int32, INT_MIN, INT_MAX, two32.
  pose proof (Z.mod_pos_bound (z + 2 ^ 31) (2 ^ 32)). lia.
Qed.

Lemma to_int32_small (z : Z) : INT_MIN <= z <= INT_MAX -> to_int32 z = z.
Proof.
  unfold to_int32, INT_MIN, INT_MAX, two32. intros H.
  rewrite Z.mod_small; lia.
Qed.

Lemma to_int32_congr (z : Z) : to_int32 z mod two32 = z mod two32.
Proof.
  unfold to_int32, two32.
  rewrite Zminus_mod, Zmod_mod, <- Zminus_mod. f_equal. lia.
Qed.

(** ** Running the monad *)

Ltac unfold_monad :=
  cbv beta iota zeta delta
    [bind ret get call store set_fmsystem set_sound set_channel set_soundInfo
     set_lastStartFrame set_currentState fst snd
     fmsystem sound channel soundInfo lastStartFrame currentState calls
     negb andb orb].

Section CleanupFacts.

Variable fmod : Engine.

Lemma cleanupResources_spec (s : Session) :
  exists rel,
    cleanupResources fmod s =
      (tt, mkSession NULL NULL NULL (soundInfo s) 0 STATE_UNINITIALIZED
             (rel ++ calls s)) /\
    forallb is_release rel = true.
Proof.
  destruct s as [sys sd ch info lsf st log].
  unfold cleanupResources. unfold_monad.
  destruct (sd =? NULL) eqn:Hs; destruct (sys =? NULL) eqn:Hy; unfold_monad;
    try (apply Z.eqb_eq in Hs; subst sd); try (apply Z.eqb_eq in Hy; subst sys).
  - exists []. split; reflexivity.
  - exists [FMOD_System_Release sys; FMOD_System_Close sys]. split; reflexivity.
  - exists [FMOD_Sound_Release sd]. split; reflexivity.
  - exists [FMOD_System_Release sys; FMOD_System_Close sys; FMOD_Sound_Release sd].
    split; reflexivity.
Qed.

End CleanupFacts.

Arguments to_uint32 : simpl never.
Arguments to_int32 : simpl never.
Arguments stopDelay : simpl never.
Arguments cleanupResources : simpl never.
Arguments FMOD_64BIT_ADD : simpl never.
Arguments written : simpl never.

Lemma FMOD_RESULT_eqb_eq (a b : FMOD_RESULT) :
  FMOD_RESULT_eqb a b = true <-> a = b.
Proof.
  split.
  - destruct a, b; simpl; intros H; try discriminate; try reflexivity.
    apply Pos.eqb_eq in H. now subst.
  - intros <-. destruct a; simpl; try reflexivity. apply Pos.eqb_refl.
Qed.

(** Turn the boolean tests met on a path into propositions. *)
Ltac reflect_tests :=
  repeat match goal with
  | H : (_ <? _) = true |- _ => apply Z.ltb_lt in H
  | H : (_ <? _) = false |- _ => apply Z.ltb_ge in H
  | H : (_ <=? _) = true |- _ => apply Z.leb_le in H
  | H : (_ <=? _) = false |- _ => apply Z.leb_gt in H
  | H : (_ =? _) = true |- _ => apply Z.eqb_eq in H
  | H : (_ =? _) = false |- _ => apply Z.eqb_neq in H
  | H : FMOD_RESULT_eqb ?r _ = true |- _ => apply FMOD_RESULT_eqb_eq in H; subst r
  end.

Ltac use_cleanup :=
  match goal with
  | |- context [cleanupResources ?f ?s] =>
      let rel := fresh "rel" in
      let E := fresh "E" in
      let Hrel := fresh "Hrel" in
      destruct (cleanupResources_spec f s) as (rel & E & Hrel);
      rewrite E; clear E; unfold_monad
  end.

(** Split on the next test of the program: a reply of the engine first, then
    any other condition that has no test inside. *)
Ltac split_one :=
  match goal with
  | |- context [match ?x with _ => _ end] =>
      lazymatch x with
      | context [match _ with _ => _ end] => fail
      | context [cleanupResources] => fail
      | _ => destruct x eqn:?; unfold_monad
      end
  end.

Ltac run_paths := repeat first [ use_cleanup | split_one ].

Ltac start_paths :=
  unfold startPlayback, PlaybackState_eqb; unfold_monad; run_paths.

Section StartFacts.

Variable fmod : Engine.

(** How a call of [startPlayback] ends: in [STATE_PLAYING] with the handles
    the engine wrote, or torn down with one of the two error codes. *)
Lemma startPlayback_outcome (f : string) (sf ef : Z) (s : Session) :
  let r := fst (startPlayback fmod f sf ef s) in
  let s' := snd (startPlayback fmod f sf ef s) in
  (r = 0 /\ Z.max 0 sf < ef /\
   currentState s' = STATE_PLAYING /\
   lastStartFrame s' = to_int32 (Z.max 0 sf) /\
   soundInfo s' = mkExInfo (to_uint32 (Z.max 0 sf)) FMOD_TIMEUNIT_PCM /\
   exists l1 o1 l2 sys2 o2 l3 sys3 sd3 o3,
     fmod l1 FMOD_System_Create = (FMOD_OK, o1) /\
     (forall h, o1 = Some h -> fmsystem s' = h) /\
     fmod l2 (FMOD_System_CreateSound sys2 f (soundInfo s')) = (FMOD_OK, o2) /\
     (forall h, o2 = Some h -> sound s' = h) /\
     fmod l3 (FMOD_System_PlaySound sys3 sd3 1) = (FMOD_OK, o3) /\
     (forall h, o3 = Some h -> channel s' = h))
  \/ ((r = -1 \/ r = -3) /\ torn_down s').
Proof.
  destruct s as [sys sd ch info lsf st log]. cbv zeta.
  start_paths.
  all: try (right; split; [ auto | repeat split ]; fail).
  all: left; reflect_tests.
  all: first [ rewrite (Z.max_l 0 sf) by lia | rewrite (Z.max_r 0 sf) by lia ].
  all: (split; [reflexivity|]); (split; [lia|]); do 3 (split; [reflexivity|]).
  all: do 9 eexists; repeat split; try eassumption; intros ? ->; reflexivity.
Qed.

End StartFacts.

(** ** The calls a run makes *)

Lemma last_attempt_release (rel l : list FMOD_call) :
  forallb is_release rel = true -> last_attempt (rel ++ l) = last_attempt l.
Proof.
  unfold last_attempt. induction rel as [|c rel IH]; simpl; intros H.
  - reflexivity.
  - apply andb_true_iff in H as [Hc Hrel]. rewrite Hc. simpl. now apply IH.
Qed.

Lemma last_attempt_all_release (rel : list FMOD_call) :
  forallb is_release rel = true -> last_attempt rel = None.
Proof.
  intros H. rewrite <- (app_nil_r rel). now rewrite last_attempt_release.
Qed.

Lemma release_not_in (c : FMOD_call) (rel : list FMOD_call) :
  forallb is_release rel = true -> is_release c = false -> ~ In c rel.
Proof.
  intros H Hc Hin. rewrite forallb_forall in H. apply H in Hin. congruence.
Qed.

Lemma extends_cons {A : Type} (x : A) (l' n l : list A) :
  l' = n ++ l -> x :: l' = (x :: n) ++ l.
Proof. intros ->. reflexivity. Qed.

Lemma extends_app {A : Type} (r l' n l : list A) :
  l' = n ++ l -> r ++ l' = (r ++ n) ++ l.
Proof. intros ->. apply app_assoc. Qed.

Lemma extends_nil {A : Type} (l : list A) : l = [] ++ l.
Proof. reflexivity. Qed.

Ltac find_extension :=
  repeat first [ exact eq_refl | apply extends_nil | apply extends_cons
               | apply extends_app ].

(** Decide a membership hypothesis in a list built from explicit calls and
    release lists. *)
Ltac search_calls H :=
  repeat match type of H with
  | In _ (_ ++ _) => apply in_app_or in H; destruct H as [H | H]
  | In _ (_ :: _) => destruct H as [H | H]; [ try discriminate H | ]
  | In _ [] => destruct H
  | In ?c ?rel =>
      match goal with
      | Hrel : forallb is_release rel = true |- _ =>
          exfalso; exact (release_not_in c rel Hrel eq_refl H)
      end
  end.

Lemma occurs_here {A : Type} (c : A) (l : list A) : c :: l = [] ++ c :: l.
Proof. reflexivity. Qed.

Lemma occurs_later {A : Type} (x c : A) (l a b : list A) :
  l = a ++ c :: b -> x :: l = (x :: a) ++ c :: b.
Proof. intros ->. reflexivity. Qed.

Lemma occurs_after {A : Type} (c : A) (r l a b : list A) :
  l = a ++ c :: b -> r ++ l = (r ++ a) ++ c :: b.
Proof. intros ->. apply app_assoc. Qed.

Ltac find_call :=
  repeat first [ apply occurs_here | apply occurs_later | apply occurs_after ].

Ltac show_answered :=
  unfold answered; do 2 eexists; split; [ find_call | eassumption ].

Section TraceFacts.

Variable fmod : Engine.

Lemma startPlayback_trace (f : string) (sf ef : Z) (s : Session) :
  let r := fst (startPlayback fmod f sf ef s) in
  let s' := snd (startPlayback fmod f sf ef s) in
  exists new,
    calls s' = new ++ calls s /\
    (r <> 0 ->
     (ef <= Z.max 0 sf /\ forallb is_release new = true /\ r = -1) \/
     (Z.max 0 sf < ef /\
      exists c, last_attempt new = Some c /\
                r = if is_stream_call c then -3 else -1)) /\
    (forall sys name info,
       In (FMOD_System_CreateSound sys name info) new ->
       name = f /\
       info = mkExInfo (to_uint32 (Z.max 0 sf)) FMOD_TIMEUNIT_PCM) /\
    (forall ch hi lo,
       In (FMOD_Channel_SetDelay ch hi lo 0) new ->
       exists sd r1 inputRate sys2 r2 bufferlength sys3 r3 rate
              sys4 r4 hi0 lo0,
         answered fmod (calls s) new
           (FMOD_Sound_GetDefaults sd) (r1, inputRate) /\
         answered fmod (calls s) new
           (FMOD_System_GetDSPBufferSize sys2) (r2, bufferlength) /\
         answered fmod (calls s) new
           (FMOD_System_GetSoftwareFormat sys3) (r3, rate) /\
         answered fmod (calls s) new
           (FMOD_System_GetDSPClock sys4) (r4, (hi0, lo0)) /\
         let startDelayFrames := to_uint32 (to_uint32 bufferlength * 2) in
         let hitime := to_uint32 hi0 in
         let lotime := to_uint32 lo0 in
         (exists hi1 lo1,
            In (FMOD_Channel_SetDelay ch hi1 lo1 1) new /\
            (hi1, lo1) = FMOD_64BIT_ADD hitime lotime 0 startDelayFrames) /\
         (hi, lo) =
           FMOD_64BIT_ADD hitime lotime 0
             (stopDelay startDelayFrames (to_int32 rate) inputRate
                (Z.max 0 sf) ef)).
Proof.
  destruct s as [sys sd ch info lsf st log]. cbv zeta.
  start_paths.
  all: reflect_tests.
  all: first [ rewrite !(Z.max_l 0 sf) by lia | rewrite !(Z.max_r 0 sf) by lia ].
  all: eexists; split; [ find_extension | ].
  all: split; [ | split ].
  (* the error code of a failed start *)
  all: try (intros Hr;
            first [ now contradiction Hr
                  | left; split; [ lia | split; [ | reflexivity ] ];
                    rewrite ?forallb_app, ?andb_true_iff; auto; fail
                  | right; split; [ lia | ];
                    eexists; split;
                    [ rewrite last_attempt_release by assumption; reflexivity
                    | reflexivity ] ]).
  (* the sound that is opened *)
  all: try (intros sys0 name info0 Hin; search_calls Hin;
            inversion Hin; subst; split; reflexivity).
  (* the stop instruction *)
  all: intros ch0 hi lo Hin; search_calls Hin.
  all: inversion Hin; subst; clear Hin.
  all: do 13 eexists.
  all: do 4 (split; [ show_answered | ]).
  all: split; [ | symmetry; eassumption ].
  all: do 2 eexists; split; [ | symmetry; eassumption ].
  all: repeat first [ apply in_or_app; right | left; reflexivity | right ].
Qed.

End TraceFacts.

Lemma good_engine_contract (fileRate outRate pos : Z) :
  engine_contract (good_engine fileRate outRate pos).
Proof.
  repeat split; simpl; intros;
    match goal with H : (_, _) = (_, _) |- _ => inversion H; subst end;
    eexists; (split; [ reflexivity | discriminate ]).
Qed.

Section StartClaims.

Variable fmod : Engine.

(** A start that returns 0 leaves the handles the engine created. *)
Lemma startPlayback_success_handles (f : string) (sf ef : Z) (s : Session) :
  engine_contract fmod ->
  fst (startPlayback fmod f sf ef s) = 0 ->
  fmsystem (snd (startPlayback fmod f sf ef s)) <> NULL /\
  sound (snd (startPlayback fmod f sf ef s)) <> NULL /\
  channel (snd (startPlayback fmod f sf ef s)) <> NULL.
Proof.
  intros (Hsys & Hsnd & Hch) Hr.
  destruct (startPlayback_outcome fmod f sf ef s)
    as [(_ & _ & _ & _ & _ & Hh) | ([Hbad | Hbad] & _)];
    [ | rewrite Hr in Hbad; discriminate Hbad .. ].
  destruct Hh as (l1 & o1 & l2 & sys2 & o2 & l3 & sys3 & sd3 & o3 &
                  E1 & W1 & E2 & W2 & E3 & W3).
  apply Hsys in E1 as (h1 & -> & N1).
  apply Hsnd in E2 as (h2 & -> & N2).
  apply Hch in E3 as (h3 & -> & N3).
  rewrite (W1 h1 eq_refl), (W2 h2 eq_refl), (W3 h3 eq_refl). auto.
Qed.

(** C2: for a request with [endFrame > startFrame >= 0], if [startPlayback]
    returns 0 then the session is in [STATE_PLAYING] and, the engine keeping
    its contract, the system, sound and channel handles are all non-null. *)
Theorem startPlayback_success_playing (f : string) (sf ef : Z) (s : Session) :
  engine_contract fmod ->
  0 <= sf < ef ->
  fst (startPlayback fmod f sf ef s) = 0 ->
  let s' := snd (startPlayback fmod f sf ef s) in
  currentState s' = STATE_PLAYING /\
  fmsystem s' <> NULL /\ sound s' <> NULL /\ channel s' <> NULL.
Proof.
  intros Hc Hrange Hr. cbv zeta.
  split; [ | now apply startPlayback_success_handles ].
  destruct (startPlayback_outcome fmod f sf ef s)
    as [(_ & _ & Hst & _) | ([Hbad | Hbad] & _)];
    [ exact Hst | rewrite Hr in Hbad; discriminate Hbad .. ].
Qed.

(** A start with an empty window is teardown and nothing else: once if the
    session was idle, twice if it was not. *)
Lemma startPlayback_range_failure (f : string) (sf ef : Z) (s : Session) :
  ef <= Z.max 0 sf ->
  startPlayback fmod f sf ef s =
    (-1,
     snd (cleanupResources fmod
            (if PlaybackState_eqb (currentState s) STATE_UNINITIALIZED then s
             else snd (cleanupResources fmod s)))).
Proof.
  intros Hrange. destruct s as [sys sd ch info lsf st log].
  unfold startPlayback. unfold_monad.
  assert (Hle : (ef <=? (if sf <? 0 then 0 else sf)) = true).
  { apply Z.leb_le. destruct (sf <? 0) eqn:E;
      [ apply Z.ltb_lt in E | apply Z.ltb_ge in E ]; lia. }
  rewrite Hle.
  destruct (PlaybackState_eqb st STATE_UNINITIALIZED); unfold_monad.
  - match goal with
    | |- context [cleanupResources fmod ?x] =>
        destruct (cleanupResources fmod x) as [[] c]
    end.
    reflexivity.
  - destruct (cleanupResources fmod (mkSession sys sd ch info lsf st log))
      as [[] c]. unfold_monad.
    destruct (cleanupResources fmod c) as [[] c']. reflexivity.
Qed.

(** C3: when [endFrame <= startFrame] after clamping, [startPlayback] returns
    the negative code -1 and has torn the session down: the state is
    [STATE_UNINITIALIZED], the three handles are null, and the only engine
    calls it made are releases. *)
Theorem startPlayback_invalid_range (f : string) (sf ef : Z) (s : Session) :
  ef <= Z.max 0 sf ->
  let r := fst (startPlayback fmod f sf ef s) in
  let s' := snd (startPlayback fmod f sf ef s) in
  r = -1 /\ r < 0 /\
  currentState s' = STATE_UNINITIALIZED /\
  fmsystem s' = NULL /\ sound s' = NULL /\ channel s' = NULL /\
  (exists rel, calls s' = rel ++ calls s /\ forallb is_release rel = true) /\
  startPlayback fmod f sf ef s =
    (-1,
     snd (cleanupResources fmod
            (if PlaybackState_eqb (currentState s) STATE_UNINITIALIZED then s
             else snd (cleanupResources fmod s)))).
Proof.
  intros Hrange. cbv zeta.
  pose proof (startPlayback_range_failure f sf ef s Hrange) as Hexact.
  destruct (startPlayback_outcome fmod f sf ef s)
    as [(_ & Hok & _) | (Hcode & Hsys & Hsnd & Hch & _ & Hst)]; [ lia | ].
  destruct (startPlayback_trace fmod f sf ef s) as (new & Hnew & Hfail & _).
  destruct Hfail as [(_ & Hrel & Hr) | (Hok & _)]; [ | | lia ].
  - destruct Hcode as [-> | ->]; discriminate.
  - rewrite Hr. repeat split; try assumption; try lia.
    exists new. split; assumption.
Qed.

(** C5, as the code has it: a failed [startPlayback] returns -1 for a range
    error and for every engine error, and -3 for a stream error (opening the
    file or asking its format); so only the stream code differs from the
    other two. *)
Theorem startPlayback_error_codes (f : string) (sf ef : Z) (s : Session) :
  let r := fst (startPlayback fmod f sf ef s) in
  let s' := snd (startPlayback fmod f sf ef s) in
  (r = 0 \/ r = -1 \/ r = -3) /\
  (exists new,
     calls s' = new ++ calls s /\
     (r <> 0 ->
      r = status_of (failure_class new) /\
      (failure_class new = RangeError <-> ef <= Z.max 0 sf))) /\
  status_of RangeError = status_of EngineError /\
  status_of StreamError <> status_of RangeError /\
  status_of StreamError <> status_of EngineError.
Proof.
  cbv zeta. split; [ | split; [ | repeat split; discriminate ] ].
  - destruct (startPlayback_outcome fmod f sf ef s)
      as [(Hr & _) | (Hcode & _)]; tauto.
  - destruct (startPlayback_trace fmod f sf ef s) as (new & Hnew & Hfail & _).
    exists new. split; [ exact Hnew | ]. intros Hr.
    destruct (Hfail Hr) as [(Hrange & Hrel & ->) | (Hok & c & Hc & ->)];
      unfold failure_class.
    + rewrite (last_attempt_all_release new Hrel). simpl. tauto.
    + rewrite Hc. destruct (is_stream_call c); simpl;
        (split; [ reflexivity | split; [ discriminate | lia ] ]).
Qed.

(** C7: a negative [startFrame] is clamped to 0 and the call goes on as the
    call with [startFrame = 0] does: the range check compares [endFrame] with
    0, the start offset recorded for [streamPosition] is 0, and every sound
    is opened with the initial seek position 0. *)
Theorem startPlayback_negative_start (f : string) (sf ef : Z) (s : Session) :
  sf < 0 ->
  let r := fst (startPlayback fmod f sf ef s) in
  let s' := snd (startPlayback fmod f sf ef s) in
  startPlayback fmod f sf ef s = startPlayback fmod f 0 ef s /\
  (ef <= 0 -> r = -1 /\ torn_down s') /\
  (r = 0 -> 0 < ef) /\
  lastStartFrame s' = 0 /\
  (r = 0 -> initialseekposition (soundInfo s') = 0) /\
  exists new,
    calls s' = new ++ calls s /\
    forall sys name info,
      In (FMOD_System_CreateSound sys name info) new ->
      initialseekposition info = 0.
Proof.
  intros Hneg. cbv zeta.
  pose proof (startPlayback_outcome fmod f sf ef s) as Hout.
  pose proof (startPlayback_trace fmod f sf ef s) as (new & Hnew & Hfail & Hopen & _).
  cbv zeta in Hout. rewrite (Z.max_l 0 sf) in * by lia.
  split; [ | split; [ | split; [ | split; [ | split ] ] ] ].
  - unfold startPlayback.
    rewrite (proj2 (Z.ltb_lt sf 0) Hneg), (proj2 (Z.ltb_ge 0 0) (Z.le_refl 0)).
    reflexivity.
  - intros Hef. destruct Hout as [(_ & Hok & _) | (Hcode & Htd)]; [ lia | ].
    split; [ | exact Htd ].
    destruct Hfail as [(_ & _ & Hr) | (Hok & _)]; lia.
  - intros Hr. destruct Hout as [(_ & Hok & _) | ([Hc | Hc] & _)];
      [ exact Hok | rewrite Hr in Hc; discriminate Hc .. ].
  - destruct Hout as [(_ & _ & _ & Hl & _) | (_ & _ & _ & _ & Hl & _)];
      rewrite Hl; reflexivity.
  - intros Hr. destruct Hout as [(_ & _ & _ & _ & Hi & _) | ([Hc | Hc] & _)];
      [ rewrite Hi; reflexivity | rewrite Hr in Hc; discriminate Hc .. ].
  - exists new. split; [ exact Hnew | ].
    intros sys name info Hin. apply Hopen in Hin as (_ & ->). reflexivity.
Qed.

(** C9: [lastStartFrame] is an [int], so a start frame of 2^31 or more is
    never recorded as requested: the recorded offset is within the range of
    [int] and differs from [startFrame], and after a successful
    [startPlayback] it is the truncation of [startFrame], the value congruent
    to it modulo 2^32 (after a failed one teardown has reset it to 0). *)
Theorem lastStartFrame_truncated (f : string) (sf ef : Z) (s : Session) :
  2 ^ 31 <= sf ->
  let r := fst (startPlayback fmod f sf ef s) in
  let s' := snd (startPlayback fmod f sf ef s) in
  int32_range (lastStartFrame s') /\
  lastStartFrame s' <> sf /\
  (r = 0 ->
   lastStartFrame s' = to_int32 sf /\
   lastStartFrame s' mod two32 = sf mod two32) /\
  (r <> 0 -> lastStartFrame s' = 0).
Proof.
  intros Hbig. cbv zeta.
  pose proof (to_int32_range sf) as Hrange.
  destruct (startPlayback_outcome fmod f sf ef s)
    as [(Hr & _ & _ & Hl & _) | (Hc & _ & _ & _ & Hl & _)].
  - rewrite (Z.max_r 0 sf) in Hl by lia. rewrite Hl.
    split; [ exact Hrange | ].
    split; [ unfold INT_MAX in Hrange; lia | ].
    split; [ intros _; split; [ reflexivity | apply to_int32_congr ] | ].
    intros Hr'. contradiction.
  - rewrite Hl.
    split; [ unfold int32_range, INT_MIN, INT_MAX; lia | ].
    split; [ lia | ].
    split; [ intros Hr; lia | reflexivity ].
Qed.

End StartClaims.

(** ** Rounding in binary64 *)

Lemma Zdigits2_log2 (m : Z) : 0 < m -> Zdigits2 m = Z.log2 m + 1.
Proof.
  destruct m as [ | p | p ]; try lia. intros _. simpl.
  assert (H : forall q, Zpos (digits2_pos q) = Zpos (Pos.size q)).
  { induction q; simpl; try reflexivity; now rewrite !Pos2Z.inj_succ, IHq. }
  rewrite H. destruct p; simpl; lia.
Qed.

Lemma Zdigits2_bounds (m : Z) :
  0 < m -> 2 ^ (Zdigits2 m - 1) <= m < 2 ^ Zdigits2 m.
Proof.
  intros Hm. rewrite Zdigits2_log2 by exact Hm.
  replace (Z.log2 m + 1 - 1) with (Z.log2 m) by lia.
  replace (Z.log2 m + 1) with (Z.succ (Z.log2 m)) by lia.
  apply Z.log2_spec. exact Hm.
Qed.

Lemma Zdigits2_unique (m d : Z) :
  2 ^ (d - 1) <= m < 2 ^ d -> 0 < d -> Zdigits2 m = d.
Proof.
  intros Hm Hd.
  assert (0 < m) by (pose proof (Z.pow_pos_nonneg 2 (d - 1)); lia).
  rewrite Zdigits2_log2 by assumption.
  rewrite (Z.log2_unique m (d - 1)); try lia.
  replace (Z.succ (d - 1)) with d by lia. exact Hm.
Qed.

Lemma shr_1_m (mrs : shr_record) :
  0 <= shr_m mrs -> shr_m (shr_1 mrs) = shr_m mrs / 2.
Proof.
  destruct mrs as [m r s]. cbn [shr_m].
  destruct m as [ | [ p | p | ] | p ]; intros H; cbn [shr_1 shr_m]; try lia.
  - reflexivity.
  - apply Z.div_unique with (r := 1); lia.
  - apply Z.div_unique with (r := 0); lia.
  - reflexivity.
Qed.

Lemma iter_pos_shr_m (p : positive) (mrs : shr_record) :
  0 <= shr_m mrs ->
  shr_m (SpecFloat.iter_pos shr_1 p mrs) = shr_m mrs / 2 ^ Zpos p.
Proof.
  revert mrs.
  induction p as [ p IH | p IH | ]; intros mrs H; cbn [SpecFloat.iter_pos].
  - assert (Hp : 0 < 2 ^ Zpos p) by (apply Z.pow_pos_nonneg; lia).
    assert (E : 2 ^ Zpos p~1 = 2 * (2 ^ Zpos p * 2 ^ Zpos p)).
    { rewrite (Pos2Z.inj_xI p).
      replace (2 * Z.pos p + 1) with (1 + Z.pos p + Z.pos p) by lia.
      rewrite !Z.pow_add_r by lia. lia. }
    assert (H1 : 0 <= shr_m (shr_1 mrs)).
    { rewrite shr_1_m by exact H. apply Z.div_pos; lia. }
    assert (H2 : 0 <= shr_m (SpecFloat.iter_pos shr_1 p (shr_1 mrs))).
    { rewrite IH by exact H1. apply Z.div_pos; lia. }
    rewrite IH by exact H2. rewrite IH by exact H1. rewrite shr_1_m by exact H.
    rewrite E, !Z.div_div by lia. reflexivity.
  - assert (Hp : 0 < 2 ^ Zpos p) by (apply Z.pow_pos_nonneg; lia).
    assert (E : 2 ^ Zpos p~0 = 2 ^ Zpos p * 2 ^ Zpos p).
    { rewrite (Pos2Z.inj_xO p).
      replace (2 * Z.pos p) with (Z.pos p + Z.pos p) by lia.
      rewrite !Z.pow_add_r by lia. reflexivity. }
    assert (H2 : 0 <= shr_m (SpecFloat.iter_pos shr_1 p mrs)).
    { rewrite IH by exact H. apply Z.div_pos; lia. }
    rewrite IH by exact H2. rewrite IH by exact H.
    rewrite E, !Z.div_div by lia. reflexivity.
  - rewrite shr_1_m by exact H. reflexivity.
Qed.

Lemma shr_record_of_loc_m (m : Z) (l : location) :
  shr_m (shr_record_of_loc m l) = m.
Proof. destruct l as [ | [ | | ] ]; reflexivity. Qed.

Lemma loc_of_shr_record_of_loc (m : Z) (l : location) :
  loc_of_shr_record (shr_record_of_loc m l) = l.
Proof. destruct l as [ | [ | | ] ]; reflexivity. Qed.

Lemma round_nearest_even_cases (m : Z) (l : location) :
  round_nearest_even m l = m \/ round_nearest_even m l = m + 1.
Proof.
  destruct l as [ | [ | | ] ]; simpl; auto.
  destruct (Z.even m); auto.
Qed.

(** The exponent function of binary64 away from the subnormal range. *)
Lemma fexp64 (e : Z) : -1021 <= e -> fexp prec64 emax64 e = e - 53.
Proof. unfold fexp, emin, prec64, emax64. lia. Qed.

(** The first step of rounding: the mantissa is cut to 53 digits. *)
Lemma shr_fexp64 (m e : Z) (l : location) :
  0 < m -> -1021 <= Zdigits2 m + e ->
  let k := Z.max 0 (Zdigits2 m - 53) in
  exists mrs,
    shr_fexp prec64 emax64 m e l = (mrs, e + k) /\
    shr_m mrs = m / 2 ^ k /\
    (k = 0 -> mrs = shr_record_of_loc m l).
Proof.
  intros Hm He k. unfold shr_fexp. rewrite fexp64 by exact He.
  replace (Zdigits2 m + e - 53 - e) with (Zdigits2 m - 53) by lia.
  unfold shr. subst k.
  destruct (Zdigits2 m - 53) as [ | p | p ] eqn:E.
  - exists (shr_record_of_loc m l). simpl.
    rewrite Z.add_0_r, Z.div_1_r, shr_record_of_loc_m. auto.
  - exists (SpecFloat.iter_pos shr_1 p (shr_record_of_loc m l)).
    rewrite Z.max_r by lia.
    rewrite iter_pos_shr_m, shr_record_of_loc_m
      by (rewrite shr_record_of_loc_m; lia).
    split; [ reflexivity | ]. split; [ reflexivity | lia ].
  - exists (shr_record_of_loc m l). rewrite Z.max_l by lia. simpl.
    rewrite Z.add_0_r, Z.div_1_r, shr_record_of_loc_m. auto.
Qed.

(** Rounding a mantissa of at least 53 digits: the result is normal, and its
    mantissa is the given one cut to 53 digits or the next integer. *)
Lemma binary_round_aux64 (mx ex : Z) (lx : location) :
  2 ^ 52 <= mx ->
  -1021 <= Zdigits2 mx + ex <= 1023 ->
  let k := Zdigits2 mx - 53 in
  let m0 := mx / 2 ^ k in
  exists m' e' j,
    binary_round_aux prec64 emax64 false mx ex lx = S754_finite false m' e' /\
    2 ^ 52 <= Zpos m' < 2 ^ 53 /\
    0 <= k /\ 2 ^ 52 <= m0 < 2 ^ 53 /\
    (j = 0 \/ j = 1) /\ e' = ex + k + j /\
    (Zpos m' * 2 ^ j = m0 \/ Zpos m' * 2 ^ j = m0 + 1) /\
    (lx = loc_Exact -> k = 0 -> Zpos m' = mx /\ e' = ex).
Proof.
  intros Hmx He k m0.
  assert (Hpos : 0 < mx) by lia.
  pose proof (Zdigits2_bounds mx Hpos) as Hd.
  assert (Hk : 0 <= k).
  { subst k. destruct (Z_lt_ge_dec (Zdigits2 mx) 53) as [Hlt | ]; [ | lia ].
    exfalso. assert (2 ^ Zdigits2 mx <= 2 ^ 52)
      by (apply Z.pow_le_mono_r; lia). lia. }
  assert (Hm0 : 2 ^ 52 <= m0 < 2 ^ 53).
  { subst m0.
    assert (Hp : 0 < 2 ^ k) by (apply Z.pow_pos_nonneg; lia).
    assert (E1 : 2 ^ (Zdigits2 mx - 1) = 2 ^ 52 * 2 ^ k).
    { rewrite <- Z.pow_add_r by lia. f_equal. subst k. lia. }
    assert (E2 : 2 ^ Zdigits2 mx = 2 ^ 53 * 2 ^ k).
    { rewrite <- Z.pow_add_r by lia. f_equal. subst k. lia. }
    split.
    - apply Z.div_le_lower_bound; lia.
    - apply Z.div_lt_upper_bound; lia. }
  unfold binary_round_aux.
  destruct (shr_fexp64 mx ex lx Hpos) as (mrs & -> & Hmrs & Hsame); [ lia | ].
  rewrite (Z.max_r 0 (Zdigits2 mx - 53)) in * by (subst k; lia).
  fold k in Hmrs, Hsame |- *. fold m0 in Hmrs.
  remember (round_nearest_even (shr_m mrs) (loc_of_shr_record mrs)) as m1
    eqn:Em1.
  assert (Hm1 : m1 = m0 \/ m1 = m0 + 1).
  { subst m1. rewrite Hmrs. apply round_nearest_even_cases. }
  assert (Hexact : lx = loc_Exact -> k = 0 -> m1 = mx).
  { intros -> Hk0. rewrite (Hsame Hk0) in Em1. exact Em1. }
  assert (Hm1pos : 0 < m1) by lia.
  destruct (Z.eq_dec m1 (2 ^ 53)) as [Htop | Hlow].
  - (* the mantissa rounded up to 2^53 *)
    assert (Hd1 : Zdigits2 m1 = 54) by (apply Zdigits2_unique; lia).
    destruct (shr_fexp64 m1 (ex + k) loc_Exact Hm1pos)
      as (mrs2 & -> & Hmrs2 & _); [ subst k; lia | ].
    rewrite Hd1 in *. change (Z.max 0 (54 - 53)) with 1 in *.
    rewrite Htop in Hmrs2. change (2 ^ 53 / 2 ^ 1) with (2 ^ 52) in Hmrs2.
    rewrite Hmrs2. change (2 ^ 52) with (Zpos (2 ^ 52)%positive).
    assert (Hle : (ex + k + 1 <=? emax64 - prec64) = true).
    { apply Z.leb_le. unfold emax64, prec64. subst k. lia. }
    rewrite Hle.
    exists (2 ^ 52)%positive, (ex + k + 1), 1.
    split; [ reflexivity | ]. split; [ lia | ]. split; [ exact Hk | ].
    split; [ exact Hm0 | ]. split; [ auto | ]. split; [ reflexivity | ].
    split.
    + change (Zpos (2 ^ 52) * 2 ^ 1) with (2 ^ 53). rewrite <- Htop.
      exact Hm1.
    + intros Hl Hk0. exfalso. specialize (Hexact Hl Hk0).
      unfold m0 in Hm0. rewrite Hk0, Z.div_1_r in Hm0. lia.
  - assert (Hd1 : Zdigits2 m1 = 53) by (apply Zdigits2_unique; lia).
    destruct (shr_fexp64 m1 (ex + k) loc_Exact Hm1pos)
      as (mrs2 & -> & Hmrs2 & _); [ subst k; lia | ].
    rewrite Hd1 in *. change (Z.max 0 (53 - 53)) with 0 in *.
    rewrite Z.div_1_r in Hmrs2. rewrite Hmrs2.
    clear Em1. destruct m1 as [ | p1 | p1 ]; try lia.
    assert (Hle : (ex + k + 0 <=? emax64 - prec64) = true).
    { apply Z.leb_le. unfold emax64, prec64. subst k. lia. }
    rewrite Hle.
    exists p1, (ex + k + 0), 0.
    split; [ reflexivity | ]. split; [ lia | ]. split; [ exact Hk | ].
    split; [ exact Hm0 | ]. split; [ auto | ]. split; [ reflexivity | ].
    split.
    + rewrite Z.mul_1_r. exact Hm1.
    + intros Hl Hk0. specialize (Hexact Hl Hk0). lia.
Qed.

(** ** The values of doubles, as rationals *)

Lemma pow2_pos (e : Z) : (0 < 2 ^ e)%Q.
Proof. apply Qpower_0_lt. reflexivity. Qed.

Lemma pow2_add (a b : Z) : (2 ^ (a + b) == 2 ^ a * 2 ^ b)%Q.
Proof. apply Qpower_plus. discriminate. Qed.

Lemma pow2_inject (k : Z) : 0 <= k -> (inject_Z (2 ^ k) == 2 ^ k)%Q.
Proof. intros Hk. now rewrite Zpower_Qpower. Qed.

Lemma F2Q_shift (m e k : Z) :
  0 <= k -> (F2Q (m * 2 ^ k) e == F2Q m (e + k))%Q.
Proof.
  intros Hk. unfold F2Q.
  rewrite inject_Z_mult, pow2_inject, pow2_add by exact Hk. ring.
Qed.

Lemma F2Q_le (m m' e : Z) : m <= m' -> (F2Q m e <= F2Q m' e)%Q.
Proof.
  intros H. unfold F2Q. apply Qmult_le_compat_r.
  - now rewrite <- Zle_Qle.
  - apply Qlt_le_weak, pow2_pos.
Qed.

Lemma F2Q_lt (m m' e : Z) : m < m' -> (F2Q m e < F2Q m' e)%Q.
Proof.
  intros H. unfold F2Q. apply Qmult_lt_compat_r.
  - apply pow2_pos.
  - now rewrite <- Zlt_Qlt.
Qed.

Lemma F2Q_plus (m m' e : Z) : (F2Q (m + m') e == F2Q m e + F2Q m' e)%Q.
Proof. unfold F2Q. rewrite inject_Z_plus. ring. Qed.

(** Rounding a value that lies between two consecutive multiples of
    [2 ^ ex] and has at least 53 digits: the result is a normal double
    within a relative error of 2^-52. *)
Lemma binary_round_aux64_value (mx ex : Z) (lx : location) (y : Q) :
  2 ^ 52 <= mx ->
  -1021 <= Zdigits2 mx + ex <= 1023 ->
  (F2Q mx ex <= y <= F2Q (mx + 1) ex)%Q ->
  exists m' e',
    binary_round_aux prec64 emax64 false mx ex lx = S754_finite false m' e' /\
    2 ^ 52 <= Zpos m' < 2 ^ 53 /\
    Zdigits2 mx + ex - 53 <= e' <= Zdigits2 mx + ex - 52 /\
    ((1 - eps64) * y <= F2Q (Zpos m') e' <= (1 + eps64) * y)%Q.
Proof.
  intros Hmx He Hy.
  destruct (binary_round_aux64 mx ex lx Hmx He)
    as (m' & e' & j & E & Hm' & Hk & Hm0 & Hj & He' & Hval & _).
  set (k := Zdigits2 mx - 53) in *. set (m0 := mx / 2 ^ k) in *.
  exists m', e'. split; [ exact E | ]. split; [ exact Hm' | ].
  split; [ lia | ].
  assert (Hp : 0 < 2 ^ k) by (apply Z.pow_pos_nonneg; lia).
  assert (Hlow : m0 * 2 ^ k <= mx).
  { subst m0. rewrite Z.mul_comm. apply Z.mul_div_le. exact Hp. }
  assert (Hup : mx + 1 <= (m0 + 1) * 2 ^ k).
  { subst m0. pose proof (Z.mod_pos_bound mx (2 ^ k) Hp).
    pose proof (Z.div_mod mx (2 ^ k)). lia. }
  assert (HR : (F2Q (Zpos m') e' == F2Q (Zpos m' * 2 ^ j) (ex + k))%Q).
  { rewrite He'. symmetry. apply F2Q_shift. lia. }
  assert (Ha : (F2Q m0 (ex + k) <= y)%Q).
  { rewrite <- F2Q_shift by exact Hk.
    eapply Qle_trans; [ apply F2Q_le; exact Hlow | apply Hy ]. }
  assert (Hb : (y <= F2Q (m0 + 1) (ex + k))%Q).
  { rewrite <- F2Q_shift by exact Hk.
    eapply Qle_trans; [ apply Hy | apply F2Q_le; exact Hup ]. }
  assert (Hu : (F2Q (2 ^ 52) (ex + k) <= F2Q m0 (ex + k))%Q)
    by (apply F2Q_le; lia).
  rewrite F2Q_plus in Hb.
  assert (HU : (F2Q (2 ^ 52) (ex + k) == inject_Z (2 ^ 52) * F2Q 1 (ex + k))%Q).
  { unfold F2Q. ring. }
  rewrite HU in Hu. clear HU.
  assert (HRc : (F2Q (Zpos m') e' == F2Q m0 (ex + k) \/
                 F2Q (Zpos m') e' == F2Q m0 (ex + k) + F2Q 1 (ex + k))%Q).
  { destruct Hval as [Hv | Hv]; rewrite Hv in HR;
      [ left | right; rewrite <- F2Q_plus ]; exact HR. }
  assert (H1 : (0 < F2Q 1 (ex + k))%Q).
  { unfold F2Q. change (inject_Z 1) with 1%Q. rewrite Qmult_1_l.
    apply pow2_pos. }
  unfold eps64. change (inject_Z (2 ^ 52)) with (4503599627370496 # 1)%Q in Hu.
  destruct HRc as [-> | ->]; split; lra.
Qed.

(** ** The double operations of line 169 *)

Lemma pos_iter_xO (p d : positive) :
  Zpos (Pos.iter xO p d) = Zpos p * 2 ^ Zpos d.
Proof.
  apply (Pos.iter_ind positive xO p (fun n q => Zpos q = Zpos p * 2 ^ Zpos n)).
  - rewrite Pos2Z.inj_xO. change (2 ^ 1) with 2. lia.
  - intros n q IH. rewrite Pos2Z.inj_xO, IH, Pos2Z.inj_succ, Z.pow_succ_r by lia.
    lia.
Qed.

(** The conversion of an integer below 2^53 to [double] is exact. *)
Lemma double_of_Z_exact (z : Z) :
  0 < z < 2 ^ 53 ->
  exists m e,
    double_of_Z z = S754_finite false m e /\
    2 ^ 52 <= Zpos m < 2 ^ 53 /\ -52 <= e <= 0 /\
    (F2Q (Zpos m) e == inject_Z z)%Q.
Proof.
  intros Hz. destruct z as [ | p | p ]; try lia.
  pose proof (Zdigits2_bounds (Zpos p) ltac:(lia)) as Hd.
  set (d := Zdigits2 (Zpos p)) in *.
  assert (Hd1 : 1 <= d <= 53).
  { split.
    - unfold d. simpl. lia.
    - destruct (Z_le_gt_dec d 53) as [ | Hgt ]; [ assumption | exfalso ].
      assert (2 ^ 53 <= 2 ^ (d - 1)) by (apply Z.pow_le_mono_r; lia). lia. }
  unfold double_of_Z, binary_normalize, binary_round.
  change (Zpos (digits2_pos p)) with d.
  rewrite fexp64 by lia. unfold shl_align.
  replace (d + 0 - 53 - 0) with (d - 53) by lia.
  destruct (d - 53) as [ | q | q ] eqn:E; try lia.
  - (* the integer has 53 digits *)
    destruct (binary_round_aux64 (Zpos p) 0 loc_Exact)
      as (m' & e' & j & -> & Hm' & _ & _ & _ & _ & _ & Hexact);
      [ replace 52 with (d - 1) by lia; apply Hd | fold d; lia | ].
    destruct Hexact as (Hm & He); [ reflexivity | fold d; lia | ].
    exists m', e'. split; [ reflexivity | ]. split; [ exact Hm' | ].
    split; [ lia | ]. rewrite Hm, He. unfold F2Q. simpl. ring.
  - (* fewer digits: the mantissa is shifted left *)
    assert (Hq : Zpos q = 53 - d) by lia.
    assert (Hmz : Zpos (Pos.iter xO p q) = Zpos p * 2 ^ (53 - d)).
    { rewrite pos_iter_xO, Hq. reflexivity. }
    assert (Hbnd : 2 ^ 52 <= Zpos (Pos.iter xO p q) < 2 ^ 53).
    { rewrite Hmz.
      assert (E1 : 2 ^ 52 = 2 ^ (d - 1) * 2 ^ (53 - d)).
      { rewrite <- Z.pow_add_r by lia. f_equal. lia. }
      assert (E2 : 2 ^ 53 = 2 ^ d * 2 ^ (53 - d)).
      { rewrite <- Z.pow_add_r by lia. f_equal. lia. }
      assert (0 < 2 ^ (53 - d)) by (apply Z.pow_pos_nonneg; lia).
      rewrite E1 at 1. rewrite E2. nia. }
    assert (Hdz : Zdigits2 (Zpos (Pos.iter xO p q)) = 53)
      by (apply Zdigits2_unique; [ exact Hbnd | lia ]).
    destruct (binary_round_aux64 (Zpos (Pos.iter xO p q)) (d + 0 - 53) loc_Exact)
      as (m' & e' & j & -> & Hm' & _ & _ & _ & _ & _ & Hexact);
      [ lia | rewrite Hdz; lia | ].
    destruct Hexact as (Hm & He); [ reflexivity | rewrite Hdz; lia | ].
    exists m', e'. split; [ reflexivity | ]. split; [ exact Hm' | ].
    split; [ lia | ]. rewrite Hm, He, Hmz.
    rewrite F2Q_shift by lia.
    replace (d + 0 - 53 + (53 - d)) with 0 by lia.
    unfold F2Q. simpl. ring.
Qed.

Lemma F2Q_pos (m e : Z) : 0 < m -> (0 < F2Q m e)%Q.
Proof.
  intros H. unfold F2Q. apply Qmult_lt_0_compat.
  - change 0%Q with (inject_Z 0). now rewrite <- Zlt_Qlt.
  - apply pow2_pos.
Qed.

Lemma F2Q_mult (m1 e1 m2 e2 : Z) :
  (F2Q (m1 * m2) (e1 + e2) == F2Q m1 e1 * F2Q m2 e2)%Q.
Proof. unfold F2Q. rewrite inject_Z_mult, pow2_add. ring. Qed.

(** The quotient of two normal doubles is the exact quotient within a
    relative error of 2^-52. *)
Lemma ddiv_value (m1 m2 : positive) (e1 e2 : Z) :
  2 ^ 52 <= Zpos m1 < 2 ^ 53 -> 2 ^ 52 <= Zpos m2 < 2 ^ 53 ->
  -400 <= e1 <= 400 -> -400 <= e2 <= 400 ->
  exists m e,
    ddiv (S754_finite false m1 e1) (S754_finite false m2 e2)
      = S754_finite false m e /\
    2 ^ 52 <= Zpos m < 2 ^ 53 /\ e1 - e2 - 53 <= e <= e1 - e2 - 51 /\
    let y := (F2Q (Zpos m1) e1 / F2Q (Zpos m2) e2)%Q in
    ((1 - eps64) * y <= F2Q (Zpos m) e <= (1 + eps64) * y)%Q.
Proof.
  intros H1 H2 He1 He2.
  assert (D1 : Zdigits2 (Zpos m1) = 53) by (apply Zdigits2_unique; lia).
  assert (D2 : Zdigits2 (Zpos m2) = 53) by (apply Zdigits2_unique; lia).
  unfold ddiv, SFdiv, SFdiv_core_binary. rewrite D1, D2.
  rewrite fexp64 by lia.
  replace (Z.min (53 + e1 - (53 + e2) - 53) (e1 - e2))
    with (e1 - e2 - 53) by lia.
  replace (e1 - e2 - (e1 - e2 - 53)) with 53 by lia.
  rewrite Z.shiftl_mul_pow2 by lia.
  pose proof (Z_div_mod (Zpos m1 * 2 ^ 53) (Zpos m2) ltac:(reflexivity)) as Hdiv.
  destruct (Z.div_eucl (Zpos m1 * 2 ^ 53) (Zpos m2)) as [q r].
  destruct Hdiv as (Hq & Hr).
  assert (Hqlo : 2 ^ 52 <= q) by nia.
  assert (Hqhi : q < 2 ^ 54) by nia.
  assert (Dq : 53 <= Zdigits2 q <= 54).
  { pose proof (Zdigits2_bounds q ltac:(lia)) as Hb.
    split.
    - destruct (Z_lt_ge_dec (Zdigits2 q) 53) as [Hlt | ]; [ exfalso | lia ].
      assert (2 ^ Zdigits2 q <= 2 ^ 52) by (apply Z.pow_le_mono_r; lia). lia.
    - destruct (Z_le_gt_dec (Zdigits2 q) 54) as [ | Hgt ]; [ lia | exfalso ].
      assert (2 ^ 54 <= 2 ^ (Zdigits2 q - 1)) by (apply Z.pow_le_mono_r; lia).
      lia. }
  set (y := (F2Q (Zpos m1) e1 / F2Q (Zpos m2) e2)%Q).
  pose proof (F2Q_pos (Zpos m2) e2 ltac:(lia)) as Hpos2.
  assert (Hsplit : forall c, (F2Q (c * Zpos m2) (e1 - 53)
                              == F2Q c (e1 - e2 - 53) * F2Q (Zpos m2) e2)%Q).
  { intros c. rewrite <- F2Q_mult. replace (e1 - e2 - 53 + e2) with (e1 - 53)
      by lia. reflexivity. }
  assert (Hnum : (F2Q (Zpos m1 * 2 ^ 53) (e1 - 53) == F2Q (Zpos m1) e1)%Q).
  { rewrite F2Q_shift by lia. replace (e1 - 53 + 53) with e1 by lia.
    reflexivity. }
  assert (Hy : (F2Q q (e1 - e2 - 53) <= y <= F2Q (q + 1) (e1 - e2 - 53))%Q).
  { unfold y. split.
    - apply Qle_shift_div_l; [ exact Hpos2 | ].
      rewrite <- Hsplit, <- Hnum. apply F2Q_le. lia.
    - apply Qle_shift_div_r; [ exact Hpos2 | ].
      rewrite <- Hsplit, <- Hnum. apply F2Q_le. lia. }
  destruct (binary_round_aux64_value q (e1 - e2 - 53)
              (new_location (Zpos m2) r) y Hqlo ltac:(lia) Hy)
    as (m & e & E & Hm & He & Hv).
  exists m, e. simpl xorb. rewrite E.
  split; [ reflexivity | ]. split; [ exact Hm | ]. split; [ lia | exact Hv ].
Qed.

(** The product of two normal doubles is the exact product within a relative
    error of 2^-52. *)
Lemma dmul_value (m1 m2 : positive) (e1 e2 : Z) :
  2 ^ 52 <= Zpos m1 < 2 ^ 53 -> 2 ^ 52 <= Zpos m2 < 2 ^ 53 ->
  -400 <= e1 <= 400 -> -400 <= e2 <= 400 ->
  exists m e,
    dmul (S754_finite false m1 e1) (S754_finite false m2 e2)
      = S754_finite false m e /\
    2 ^ 52 <= Zpos m < 2 ^ 53 /\ e1 + e2 + 52 <= e <= e1 + e2 + 54 /\
    let y := (F2Q (Zpos m1) e1 * F2Q (Zpos m2) e2)%Q in
    ((1 - eps64) * y <= F2Q (Zpos m) e <= (1 + eps64) * y)%Q.
Proof.
  intros H1 H2 He1 He2.
  unfold dmul, SFmul. simpl xorb.
  set (mx := Zpos (m1 * m2)).
  assert (Hmx : mx = Zpos m1 * Zpos m2) by reflexivity.
  assert (Hlo : 2 ^ 104 <= mx) by (change (2 ^ 104) with (2 ^ 52 * 2 ^ 52); nia).
  assert (Hhi : mx < 2 ^ 106) by (change (2 ^ 106) with (2 ^ 53 * 2 ^ 53); nia).
  assert (Dx : 105 <= Zdigits2 mx <= 106).
  { pose proof (Zdigits2_bounds mx ltac:(lia)) as Hb.
    split.
    - destruct (Z_lt_ge_dec (Zdigits2 mx) 105) as [Hlt | ]; [ exfalso | lia ].
      assert (2 ^ Zdigits2 mx <= 2 ^ 104) by (apply Z.pow_le_mono_r; lia). lia.
    - destruct (Z_le_gt_dec (Zdigits2 mx) 106) as [ | Hgt ]; [ lia | exfalso ].
      assert (2 ^ 106 <= 2 ^ (Zdigits2 mx - 1))
        by (apply Z.pow_le_mono_r; lia).
      lia. }
  set (y := (F2Q (Zpos m1) e1 * F2Q (Zpos m2) e2)%Q).
  assert (Hy : (F2Q mx (e1 + e2) <= y <= F2Q (mx + 1) (e1 + e2))%Q).
  { unfold y. rewrite <- F2Q_mult, <- Hmx. split.
    - apply Qle_refl.
    - apply F2Q_le. lia. }
  destruct (binary_round_aux64_value mx (e1 + e2) loc_Exact y
              ltac:(lia) ltac:(lia) Hy)
    as (m & e & E & Hm & He & Hv).
  exists m, e. rewrite E.
  split; [ reflexivity | ]. split; [ exact Hm | ]. split; [ lia | exact Hv ].
Qed.

(** The cast [(int)] of a positive double takes the integer part. *)
Lemma int_of_double_floor (m : positive) (e : Z) :
  exists t,
    (inject_Z t <= F2Q (Zpos m) e < inject_Z (t + 1))%Q /\
    0 <= t /\
    (t <= INT_MAX -> int_of_double (S754_finite false m e) = t).
Proof.
  unfold int_of_double.
  destruct e as [ | p | p ].
  - exists (Zpos m). rewrite Z.shiftl_mul_pow2 by lia.
    change (2 ^ 0) with 1. rewrite Z.mul_1_r.
    split; [ | split; [ lia | ] ].
    + unfold F2Q. change (2 ^ 0)%Q with 1%Q. rewrite Qmult_1_r.
      split; [ apply Qle_refl | rewrite <- Zlt_Qlt; lia ].
    + intros Ht. unfold INT_MIN, INT_MAX in *.
      destruct ((- 2 ^ 31 <=? Zpos m) && (Zpos m <=? 2 ^ 31 - 1)) eqn:E;
        [ reflexivity | ].
      apply andb_false_iff in E.
      destruct E as [E | E]; [ apply Z.leb_gt in E | apply Z.leb_gt in E ]; lia.
  - exists (Zpos m * 2 ^ Zpos p). rewrite Z.shiftl_mul_pow2 by lia.
    assert (Hp : 0 < 2 ^ Zpos p) by (apply Z.pow_pos_nonneg; lia).
    split; [ | split; [ lia | ] ].
    + rewrite <- (F2Q_shift (Zpos m) 0 (Zpos p)) by lia.
      unfold F2Q at 1 2. change (2 ^ 0)%Q with 1%Q. rewrite Qmult_1_r.
      split; [ apply Qle_refl | rewrite <- Zlt_Qlt; lia ].
    + intros Ht. unfold INT_MIN, INT_MAX in *.
      destruct ((- 2 ^ 31 <=? Zpos m * 2 ^ Zpos p)
                && (Zpos m * 2 ^ Zpos p <=? 2 ^ 31 - 1)) eqn:E;
        [ reflexivity | ].
      apply andb_false_iff in E.
      destruct E as [E | E]; [ apply Z.leb_gt in E | apply Z.leb_gt in E ]; lia.
  - exists (Zpos m / 2 ^ Zpos p). rewrite Z.shiftr_div_pow2 by lia.
    assert (Hp : 0 < 2 ^ Zpos p) by (apply Z.pow_pos_nonneg; lia).
    assert (H0 : 0 <= Zpos m / 2 ^ Zpos p) by (apply Z.div_pos; lia).
    split; [ | split; [ exact H0 | ] ].
    + pose proof (Z.mul_div_le (Zpos m) (2 ^ Zpos p) Hp) as Hlo.
      pose proof (Z.mod_pos_bound (Zpos m) (2 ^ Zpos p) Hp) as Hmod.
      pose proof (Z.div_mod (Zpos m) (2 ^ Zpos p) ltac:(lia)) as Hdm.
      assert (Hv : forall c, (inject_Z c == F2Q (c * 2 ^ Zpos p) (Zneg p))%Q).
      { intros c. rewrite F2Q_shift by lia.
        replace (Zneg p + Zpos p) with 0 by lia.
        unfold F2Q. change (2 ^ 0)%Q with 1%Q. ring. }
      rewrite !Hv. split; [ apply F2Q_le; lia | apply F2Q_lt; lia ].
    + intros Ht. unfold INT_MIN, INT_MAX in *.
      destruct ((- 2 ^ 31 <=? Zpos m / 2 ^ Zpos p)
                && (Zpos m / 2 ^ Zpos p <=? 2 ^ 31 - 1)) eqn:E;
        [ reflexivity | ].
      apply andb_false_iff in E.
      destruct E as [E | E]; [ apply Z.leb_gt in E | apply Z.leb_gt in E ]; lia.
Qed.

(** Line 169 against the exact conversion: for an integer input rate of at
    most 524288 Hz, a positive output rate and a window whose converted
    length fits an [int], the value that C computes in double precision and
    truncates is the floor of [outputRate * window / inputRate] or one
    less. *)
Lemma rate_conversion_floor (r w n : Z) (inputRate : spec_float) :
  0 < r -> 0 < w -> 0 < n <= 524288 ->
  double_of_float inputRate = double_of_Z n ->
  r * w / n < INT_MAX ->
  let t := int_of_double
             (dmul (double_of_Z r)
                   (ddiv (double_of_Z w) (double_of_float inputRate))) in
  t = r * w / n \/ t = r * w / n - 1.
Proof.
  intros Hr Hw Hn Hrate Hfit. cbv zeta. unfold INT_MAX in Hfit.
  set (fl := r * w / n) in *.
  pose proof (Z.div_mod (r * w) n ltac:(lia)) as Hdm. fold fl in Hdm.
  pose proof (Z.mod_pos_bound (r * w) n ltac:(lia)) as Hrem.
  set (rem := (r * w) mod n) in *.
  assert (Hfl : 0 <= fl) by (apply Z.div_pos; nia).
  assert (Hprod : r * w < 2 ^ 50).
  { assert (r * w < n * (fl + 1)) by lia.
    assert (n * (fl + 1) <= 524288 * 2 ^ 31) by nia.
    change (2 ^ 50) with (524288 * 2 ^ 31). lia. }
  assert (Hr53 : 0 < r < 2 ^ 53) by nia.
  assert (Hw53 : 0 < w < 2 ^ 53) by nia.
  assert (Hn53 : 0 < n < 2 ^ 53) by lia.
  rewrite Hrate.
  destruct (double_of_Z_exact r Hr53) as (mA & eA & -> & HmA & HeA & HvA).
  destruct (double_of_Z_exact w Hw53) as (mW & eW & -> & HmW & HeW & HvW).
  destruct (double_of_Z_exact n Hn53) as (mN & eN & -> & HmN & HeN & HvN).
  destruct (ddiv_value mW mN eW eN HmW HmN ltac:(lia) ltac:(lia))
    as (mQ & eQ & -> & HmQ & HeQ & HvQ).
  destruct (dmul_value mA mQ eA eQ HmA HmQ ltac:(lia) ltac:(lia))
    as (mP & eP & -> & HmP & HeP & HvP).
  destruct (int_of_double_floor mP eP) as (t & Ht & Ht0 & Hcast).
  cbv zeta in HvQ, HvP. rewrite HvW, HvN in HvQ. rewrite HvA in HvP.
  set (vQ := F2Q (Zpos mQ) eQ) in *. set (vP := F2Q (Zpos mP) eP) in *.
  set (R := inject_Z r) in *. set (W := inject_Z w) in *.
  set (N := inject_Z n) in *.
  assert (HR : (0 < R)%Q) by (unfold R; change 0%Q with (inject_Z 0);
                              rewrite <- Zlt_Qlt; lia).
  assert (HN : (0 < N)%Q) by (unfold N; change 0%Q with (inject_Z 0);
                              rewrite <- Zlt_Qlt; lia).
  assert (HNle : (N <= 524288)%Q)
    by (unfold N; change 524288%Q with (inject_Z 524288);
        rewrite <- Zle_Qle; lia).
  set (X := (W / N)%Q) in *.
  assert (HX : (N * X == W)%Q) by (unfold X; field; lra).
  assert (HX0 : (0 < X)%Q).
  { unfold X. apply Qlt_shift_div_l; [ exact HN | ].
    rewrite Qmult_0_l. unfold W. change 0%Q with (inject_Z 0).
    rewrite <- Zlt_Qlt. lia. }
  (* the exact value and its floor *)
  set (F := inject_Z fl). set (x := (R * X)%Q).
  assert (Hx : (N * x == N * F + inject_Z rem)%Q).
  { unfold x, F, N. setoid_replace (inject_Z n * (R * X))%Q
      with (R * (inject_Z n * X))%Q by ring.
    fold N. rewrite HX. unfold R, W, N.
    rewrite <- !inject_Z_mult, <- inject_Z_plus. now rewrite <- Hdm. }
  assert (Hrem0 : (0 <= inject_Z rem)%Q)
    by (change 0%Q with (inject_Z 0); rewrite <- Zle_Qle; lia).
  assert (Hrem1 : (inject_Z rem <= N - 1)%Q).
  { unfold N. change 1%Q with (inject_Z 1). unfold Qminus.
    rewrite <- inject_Z_opp, <- inject_Z_plus, <- Zle_Qle. lia. }
  assert (HF : (F + 1 <= 2147483647)%Q).
  { unfold F. change 1%Q with (inject_Z 1).
    change 2147483647%Q with (inject_Z 2147483647).
    rewrite <- inject_Z_plus, <- Zle_Qle. lia. }
  assert (HF0 : (0 <= F)%Q)
    by (unfold F; change 0%Q with (inject_Z 0); rewrite <- Zle_Qle; lia).
  (* the computed value *)
  assert (HvP' : ((1 - eps64) * ((1 - eps64) * x) <= vP
                  <= (1 + eps64) * ((1 + eps64) * x))%Q).
  { unfold eps64 in *. unfold x.
    assert (H1 : (R * ((1 - (1 # 4503599627370496)) * X) <= R * vQ)%Q)
      by (apply Qmult_le_l; [ exact HR | apply HvQ ]).
    assert (H2 : (R * vQ <= R * ((1 + (1 # 4503599627370496)) * X))%Q)
      by (apply Qmult_le_l; [ exact HR | apply HvQ ]).
    split; lra. }
  (* N * x lies in [N * F, N * F + N - 1] *)
  assert (Hxlo : (F <= x)%Q).
  { apply (Qmult_le_l _ _ N HN). lra. }
  assert (Hxhi : (N * x <= N * F + N - 1)%Q) by lra.
  assert (Hupper : (vP < F + 1)%Q).
  { apply (Qmult_lt_l _ _ N HN).
    assert (Hx31 : (x <= F + 1)%Q) by (apply (Qmult_le_l _ _ N HN); lra).
    assert (HNv : (N * vP <= N * ((1 + eps64) * ((1 + eps64) * x)))%Q)
      by (apply Qmult_le_l; [ exact HN | apply HvP' ]).
    assert (Hc : (N * x <= 524288 * 2147483647)%Q).
    { apply Qle_trans with (N * 2147483647)%Q.
      - apply Qmult_le_l; [ exact HN | lra ].
      - apply Qmult_le_compat_r; [ exact HNle | lra ]. }
    unfold eps64 in *. lra. }
  assert (Hlower : (F - 1 < vP)%Q).
  { assert (Hx31 : (x <= 2147483647)%Q)
      by (apply Qle_trans with (F + 1)%Q;
          [ apply (Qmult_le_l _ _ N HN); lra | exact HF ]).
    unfold eps64 in *. lra. }
  assert (Htle : t <= fl).
  { assert (H : (inject_Z t < inject_Z (fl + 1))%Q).
    { rewrite inject_Z_plus. fold F. change (inject_Z 1) with 1%Q.
      destruct Ht. lra. }
    rewrite <- Zlt_Qlt in H. lia. }
  assert (Htge : fl - 1 <= t).
  { assert (H : (inject_Z (fl - 1) < inject_Z (t + 1))%Q).
    { assert (E : (inject_Z (fl - 1) == F - 1)%Q)
        by (unfold Z.sub; rewrite inject_Z_plus; reflexivity).
      rewrite E. destruct Ht. lra. }
    rewrite <- Zlt_Qlt in H. lia. }
  rewrite Hcast by (unfold INT_MAX; lia). lia.
Qed.

(** ** The scheduled stop (line 169) *)

(** What line 169 computes on one second of a 44100 Hz file played at
    48000 Hz. *)
Lemma one_second_at_48000 :
  int_of_double
    (dmul (double_of_Z 48000)
          (ddiv (double_of_Z (44100 - 0)) (double_of_float (float_of_Z 44100))))
  = 48000.
Proof. vm_compute. reflexivity. Qed.

(** The macro is the addition of a 32-bit delay to the 64-bit clock. *)
Lemma FMOD_64BIT_ADD_sum (hi lo d : Z) :
  uint32_range hi -> uint32_range lo -> uint32_range d ->
  let '(hi', lo') := FMOD_64BIT_ADD hi lo 0 d in
  hi' * two32 + lo' = (hi * two32 + lo + d) mod (two32 * two32).
Proof.
  unfold uint32_range, FMOD_64BIT_ADD, to_uint32, two32.
  intros Hhi Hlo Hd.
  destruct (Z_lt_ge_dec (lo + d) (2 ^ 32)) as [Hsmall | Hcarry].
  - rewrite (Z.mod_small (lo + d)) by lia.
    destruct (lo + d <? lo) eqn:E; [ apply Z.ltb_lt in E; lia | ].
    rewrite (Z.mod_small (0 + 0)) by lia.
    rewrite (Z.mod_small (hi + 0)) by lia.
    rewrite Z.mod_small; lia.
  - assert (Hlow : (lo + d) mod 2 ^ 32 = lo + d - 2 ^ 32).
    { symmetry. apply Z.mod_unique with (q := 1); lia. }
    rewrite Hlow.
    destruct (lo + d - 2 ^ 32 <? lo) eqn:E; [ | apply Z.ltb_ge in E; lia ].
    rewrite (Z.mod_small (0 + 1)) by lia.
    destruct (Z_lt_ge_dec (hi + 1) (2 ^ 32)) as [Hh | Hh].
    + rewrite (Z.mod_small (hi + 1)) by lia.
      rewrite Z.mod_small; lia.
    + assert (hi = 2 ^ 32 - 1) as -> by lia.
      replace (2 ^ 32 - 1 + 1) with (2 ^ 32) by lia.
      rewrite Z.mod_same by lia.
      apply Z.mod_unique with (q := 1); lia.
Qed.

Lemma to_uint32_sub_add (a k : Z) :
  to_uint32 (to_uint32 (a + k) - a) = to_uint32 k.
Proof.
  unfold to_uint32. rewrite Zminus_mod_idemp_l. f_equal. lia.
Qed.

Section StopDelay.

Variable fmod : Engine.

(** C1, as the code has it: the stop instruction is scheduled at the clock
    plus [endDelayFrames], where [endDelayFrames] is [startDelayFrames] plus
    [(int) (outputRate * (windowFrames / inputRate))] modulo 2^32: the
    quotient and then the product are rounded in double precision and the
    cast takes the integer part when it fits an [int] ([int_of_double]; C
    leaves the cast undefined otherwise).  For a 44100 Hz file on a 48000 Hz
    output and the window from frame 0 to frame 44100 the stop delay is the
    start delay plus exactly 48000 frames.  For an integer input rate of at
    most 524288 Hz, a positive output rate and a window whose exact
    conversion [floor (outputRate * windowFrames / inputRate)] is below
    [INT_MAX], the value added to the start delay is that floor or one
    less. *)
Theorem stop_delay_rate_conversion (f : string) (sf ef : Z) (s : Session)
    (new : list FMOD_call) (ch hi lo : Z) :
  calls (snd (startPlayback fmod f sf ef s)) = new ++ calls s ->
  In (FMOD_Channel_SetDelay ch hi lo 0) new ->
  exists sd r1 inputRate sys2 r2 bufferlength sys3 r3 rate sys4 r4 hi0 lo0,
    answered fmod (calls s) new (FMOD_Sound_GetDefaults sd) (r1, inputRate) /\
    answered fmod (calls s) new
      (FMOD_System_GetDSPBufferSize sys2) (r2, bufferlength) /\
    answered fmod (calls s) new
      (FMOD_System_GetSoftwareFormat sys3) (r3, rate) /\
    answered fmod (calls s) new
      (FMOD_System_GetDSPClock sys4) (r4, (hi0, lo0)) /\
    let startDelayFrames := to_uint32 (to_uint32 bufferlength * 2) in
    let outputRate := to_int32 rate in
    let startFrame := Z.max 0 sf in
    let endDelayFrames :=
      to_uint32
        (startDelayFrames +
         int_of_double
           (dmul (double_of_Z outputRate)
                 (ddiv (double_of_Z (ef - startFrame))
                       (double_of_float inputRate)))) in
    (hi, lo) = FMOD_64BIT_ADD (to_uint32 hi0) (to_uint32 lo0) 0 endDelayFrames /\
    (inputRate = float_of_Z 44100 -> outputRate = 48000 ->
     sf = 0 -> ef = 44100 ->
     endDelayFrames = to_uint32 (startDelayFrames + 48000) /\
     to_uint32 (endDelayFrames - startDelayFrames) = 48000) /\
    (forall n,
       double_of_float inputRate = double_of_Z n -> 0 < n <= 524288 ->
       0 < outputRate -> startFrame < ef ->
       let exact := outputRate * (ef - startFrame) / n in
       exact < INT_MAX ->
       endDelayFrames = to_uint32 (startDelayFrames + exact) \/
       endDelayFrames = to_uint32 (startDelayFrames + (exact - 1))).
Proof.
  intros Hnew Hin.
  destruct (startPlayback_trace fmod f sf ef s) as (new' & Hnew' & _ & _ & Hstop).
  assert (new' = new) as ->.
  { apply (app_inv_tail (calls s)). congruence. }
  destruct (Hstop ch hi lo Hin)
    as (sd & r1 & inputRate & sys2 & r2 & bufferlength & sys3 & r3 & rate &
        sys4 & r4 & hi0 & lo0 & A1 & A2 & A3 & A4 & _ & Hclock).
  exists sd, r1, inputRate, sys2, r2, bufferlength, sys3, r3, rate,
         sys4, r4, hi0, lo0.
  do 4 (split; [ assumption | ]). cbv zeta.
  split; [ exact Hclock | ].
  split.
  - intros -> -> -> ->. change (Z.max 0 0) with 0.
    rewrite one_second_at_48000.
    split; [ reflexivity | ].
    rewrite to_uint32_sub_add. reflexivity.
  - intros n Hrate Hn Hout Hwindow Hfit.
    destruct (rate_conversion_floor (to_int32 rate) (ef - Z.max 0 sf) n
                inputRate Hout ltac:(lia) Hn Hrate Hfit) as [E | E];
      rewrite E; auto.
Qed.

End StopDelay.

(** C1 on a 44100 Hz file, a 48000 Hz output and the window from frame 0 to
    frame 44100: the stop is scheduled 48000 frames after the start; and on
    an 8000 Hz file, a 48000 Hz output and a window of 9 frames: the stop
    delay is the start delay plus the floor of 48000 * 9 / 8000 or one
    less. *)
Lemma stop_delay_rate_conversion_witness :
  (exists sd r1 inputRate sys2 r2 bufferlength sys3 r3 rate sys4 r4 hi0 lo0,
    let fmod := good_engine 44100 48000 0 in
    let new := calls (snd (startPlayback fmod song 0 44100 initial_session)) in
    answered fmod [] new (FMOD_Sound_GetDefaults sd) (r1, inputRate) /\
    answered fmod [] new (FMOD_System_GetDSPBufferSize sys2) (r2, bufferlength) /\
    answered fmod [] new (FMOD_System_GetSoftwareFormat sys3) (r3, rate) /\
    answered fmod [] new (FMOD_System_GetDSPClock sys4) (r4, (hi0, lo0)) /\
    let startDelayFrames := to_uint32 (to_uint32 bufferlength * 2) in
    let outputRate := to_int32 rate in
    let startFrame := Z.max 0 0 in
    let endDelayFrames :=
      to_uint32
        (startDelayFrames +
         int_of_double
           (dmul (double_of_Z outputRate)
                 (ddiv (double_of_Z (44100 - startFrame))
                       (double_of_float inputRate)))) in
    (0, 51048) = FMOD_64BIT_ADD (to_uint32 hi0) (to_uint32 lo0) 0 endDelayFrames /\
    (inputRate = float_of_Z 44100 -> outputRate = 48000 ->
     0 = 0 -> 44100 = 44100 ->
     endDelayFrames = to_uint32 (startDelayFrames + 48000) /\
     to_uint32 (endDelayFrames - startDelayFrames) = 48000) /\
    (forall n,
       double_of_float inputRate = double_of_Z n -> 0 < n <= 524288 ->
       0 < outputRate -> startFrame < 44100 ->
       let exact := outputRate * (44100 - startFrame) / n in
       exact < INT_MAX ->
       endDelayFrames = to_uint32 (startDelayFrames + exact) \/
       endDelayFrames = to_uint32 (startDelayFrames + (exact - 1)))) /\
  (let short := snd (startPlayback (good_engine 8000 48000 0) song 0 9
                       initial_session) in
   In (FMOD_Channel_SetDelay 3 0 3101 0) (calls short) /\
   double_of_float (float_of_Z 8000) = double_of_Z 8000 /\
   48000 * (9 - 0) / 8000 < INT_MAX /\
   (stopDelay 2048 48000 (float_of_Z 8000) 0 9 = 2048 + 48000 * (9 - 0) / 8000 \/
    stopDelay 2048 48000 (float_of_Z 8000) 0 9
      = 2048 + (48000 * (9 - 0) / 8000 - 1))).
Proof.
  split.
  - apply (stop_delay_rate_conversion (good_engine 44100 48000 0) song 0 44100
             initial_session
             (calls (snd (startPlayback (good_engine 44100 48000 0) song 0 44100
                            initial_session)))
             3 0 51048).
    + vm_compute. reflexivity.
    + vm_compute. tauto.
  - cbv zeta.
    assert (Hin : In (FMOD_Channel_SetDelay 3 0 3101 0)
                    (calls (snd (startPlayback (good_engine 8000 48000 0) song
                                   0 9 initial_session))))
      by (vm_compute; tauto).
    assert (Hrate : double_of_float (float_of_Z 8000) = double_of_Z 8000)
      by (vm_compute; reflexivity).
    assert (Hfit : 48000 * (9 - 0) / 8000 < INT_MAX)
      by (vm_compute; reflexivity).
    split; [ exact Hin | ]. split; [ exact Hrate | ]. split; [ exact Hfit | ].
    destruct (stop_delay_rate_conversion (good_engine 8000 48000 0) song 0 9
                initial_session
                (calls (snd (startPlayback (good_engine 8000 48000 0) song 0 9
                               initial_session)))
                3 0 3101)
      as (sd & r1 & inputRate & sys2 & r2 & bufferlength & sys3 & r3 & rate &
          sys4 & r4 & hi0 & lo0 & A1 & A2 & A3 & _ & H);
      [ vm_compute; reflexivity | exact Hin | ].
    cbv zeta in H. destruct H as (_ & _ & Hfloor).
    destruct A1 as (a1 & b1 & _ & E1). destruct A2 as (a2 & b2 & _ & E2).
    destruct A3 as (a3 & b3 & _ & E3).
    cbv beta iota delta [good_engine] in E1, E2, E3.
    injection E1 as <- <-. injection E2 as <- <-. injection E3 as <- <-.
    destruct (Hfloor 8000 Hrate ltac:(lia) ltac:(vm_compute; reflexivity)
                ltac:(vm_compute; reflexivity) ltac:(vm_compute; reflexivity))
      as [E | E]; [ left | right ]; vm_compute in E |- *; exact E.
Defined.

(** C1 as stated fails, in two ways.  The value is not always the floor: on
    an 8000 Hz file played at 48000 Hz a window of 9 frames is 54 output
    frames, but line 169 computes 53.  And it is not always near it: on a
    44100 Hz file played at 48000 Hz a window of 2^31 frames is 2337397167
    output frames, which does not fit an [int]; the cast gives [INT_MIN] and
    the stop is scheduled 2^31 frames after the start delay, 189913519
    frames early.  The same happens for a window of 2^40 frames. *)
Lemma stop_delay_not_floor :
  let short := snd (startPlayback (good_engine 8000 48000 0) song 0 9
                      initial_session) in
  let long := snd (startPlayback (good_engine 44100 48000 0) song 0 (2 ^ 31)
                     initial_session) in
  (In (FMOD_Channel_SetDelay 3 0 (1000 + (2048 + 53)) 0) (calls short) /\
   stopDelay 2048 48000 (float_of_Z 8000) 0 9 = 2048 + 53 /\
   2048 + 48000 * (9 - 0) / 8000 = 2048 + 54 /\
   stopDelay 2048 48000 (float_of_Z 8000) 0 9 <> 2048 + 48000 * (9 - 0) / 8000) /\
  (In (FMOD_Channel_SetDelay 3 0 (1000 + (2048 + 2 ^ 31)) 0) (calls long) /\
   int_of_double
     (dmul (double_of_Z 48000)
           (ddiv (double_of_Z (2 ^ 31 - 0)) (double_of_float (float_of_Z 44100))))
     = INT_MIN /\
   stopDelay 2048 48000 (float_of_Z 44100) 0 (2 ^ 31) = 2048 + 2 ^ 31 /\
   2048 + 48000 * (2 ^ 31 - 0) / 44100 = 2048 + 2337397167 /\
   2048 + 2337397167 < two32 /\
   (2048 + 48000 * (2 ^ 31 - 0) / 44100)
     - stopDelay 2048 48000 (float_of_Z 44100) 0 (2 ^ 31) = 189913519) /\
  (stopDelay 2048 48000 (float_of_Z 44100) 0 (2 ^ 40) = 2048 + 2 ^ 31 /\
   to_uint32 (2048 + 48000 * (2 ^ 40 - 0) / 44100) = 2746443720).
Proof.
  cbv zeta. split; [ | split ].
  - split; [ vm_compute; tauto | ].
    repeat split; try (vm_compute; reflexivity).
    vm_compute. discriminate.
  - split; [ vm_compute; tauto | ].
    repeat split; vm_compute; reflexivity.
  - split; vm_compute; reflexivity.
Qed.

(** ** Position, progress and stop *)

Arguments exceptional : simpl never.

Lemma playing_valid_dec (s : Session) : playing_valid s \/ ~ playing_valid s.
Proof.
  unfold playing_valid, NULL.
  destruct (Z_le_gt_dec (state_rank STATE_PLAYING) (state_rank (currentState s)));
    destruct (Z.eq_dec (fmsystem s) 0); destruct (Z.eq_dec (sound s) 0);
    destruct (Z.eq_dec (channel s) 0); intuition lia.
Qed.

Section QueryFacts.

Variable fmod : Engine.

(** [validateState STATE_PLAYING] returns 1 and changes nothing when the
    state and the handles are as expected. *)
Lemma validateState_playing_valid (s : Session) :
  playing_valid s -> validateState STATE_PLAYING s = (1, s).
Proof.
  unfold playing_valid. destruct s as [sys sd ch info lsf st log]. simpl.
  intros (Hst & Hsys & Hsd & Hch).
  apply Z.eqb_neq in Hsys, Hsd, Hch.
  unfold validateState. unfold_monad.
  destruct st; simpl in Hst; try lia; simpl; rewrite Hsys, Hsd, Hch; reflexivity.
Qed.

(** Otherwise it returns 0, and moves to [STATE_ERROR] when the state was
    high enough but a handle is missing. *)
Lemma validateState_playing_invalid (s : Session) :
  ~ playing_valid s ->
  exists st',
    validateState STATE_PLAYING s =
      (0, mkSession (fmsystem s) (sound s) (channel s) (soundInfo s)
            (lastStartFrame s) st' (calls s)) /\
    (st' = currentState s \/
     st' = STATE_ERROR /\
     (fmsystem s = NULL \/ sound s = NULL \/ channel s = NULL)).
Proof.
  unfold playing_valid. destruct s as [sys sd ch info lsf st log]. simpl.
  intros Hn. unfold validateState. unfold_monad.
  destruct (state_rank st <? state_rank STATE_PLAYING) eqn:Hst.
  { exists st. split; [ reflexivity | now left ]. }
  apply Z.ltb_ge in Hst. simpl.
  destruct (sys =? NULL) eqn:Hsys.
  { apply Z.eqb_eq in Hsys. exists STATE_ERROR. split; [ reflexivity | auto ]. }
  destruct (sd =? NULL) eqn:Hsd.
  { apply Z.eqb_eq in Hsd. exists STATE_ERROR. split; [ reflexivity | auto ]. }
  destruct (ch =? NULL) eqn:Hch.
  { apply Z.eqb_eq in Hch. exists STATE_ERROR. split; [ reflexivity | auto ]. }
  apply Z.eqb_neq in Hsys, Hsd, Hch. tauto.
Qed.

Lemma streamPosition_invalid (s : Session) :
  ~ playing_valid s ->
  exists st',
    streamPosition fmod s =
      (-1, mkSession (fmsystem s) (sound s) (channel s) (soundInfo s)
             (lastStartFrame s) st' (calls s)) /\
    (st' = currentState s \/
     st' = STATE_ERROR /\
     (fmsystem s = NULL \/ sound s = NULL \/ channel s = NULL)).
Proof.
  intros Hn. destruct (validateState_playing_invalid s Hn) as (st' & E & Hst').
  exists st'. split; [ | exact Hst' ].
  unfold streamPosition, bind. rewrite E. reflexivity.
Qed.

Lemma streamPosition_valid (s : Session) :
  playing_valid s ->
  exists res out,
    fmod (FMOD_System_Update (fmsystem s) :: calls s)
      (FMOD_Channel_GetPosition (channel s)) = (res, out) /\
    streamPosition fmod s =
      (if exceptional res then -1
       else to_uint32 (to_uint32 (written out 0) - lastStartFrame s),
       mkSession (fmsystem s) (sound s) (channel s) (soundInfo s)
         (lastStartFrame s) (currentState s)
         (FMOD_Channel_GetPosition (channel s)
          :: FMOD_System_Update (fmsystem s) :: calls s)).
Proof.
  intros Hv.
  destruct (fmod (FMOD_System_Update (fmsystem s) :: calls s)
              (FMOD_Channel_GetPosition (channel s))) as [res out] eqn:E.
  exists res, out. split; [ reflexivity | ].
  unfold streamPosition, bind at 1. rewrite (validateState_playing_valid s Hv).
  destruct s as [sys sd ch info lsf st log]. simpl in E.
  unfold_monad. simpl. rewrite E.
  destruct (exceptional res); reflexivity.
Qed.

(** The result of [streamPosition] is the sentinel or fits 32 bits. *)
Lemma streamPosition_result_range (s : Session) :
  fst (streamPosition fmod s) = -1 \/ 0 <= fst (streamPosition fmod s) < two32.
Proof.
  destruct (playing_valid_dec s) as [Hv | Hn].
  - destruct (streamPosition_valid s Hv) as (res & out & _ & ->). simpl.
    destruct (exceptional res); [ now left | right; apply to_uint32_range ].
  - destruct (streamPosition_invalid s Hn) as (st' & -> & _). now left.
Qed.

End QueryFacts.

Section SessionFacts.

Variable fmod : Engine.

Lemma cleanupResources_torn_down (s : Session) :
  torn_down (snd (cleanupResources fmod s)).
Proof.
  destruct (cleanupResources_spec fmod s) as (rel & -> & _).
  repeat split.
Qed.

(** [stopPlayback] written out: nothing when idle, else the capture (when the
    state and the channel allow it) followed by teardown. *)
Lemma stopPlayback_unfold (s : Session) :
  stopPlayback fmod s =
  if PlaybackState_eqb (currentState s) STATE_UNINITIALIZED then (0, s)
  else
    let p :=
      if (state_rank (currentState s) >=? state_rank STATE_PLAYING)
         && negb (channel s =? NULL)
      then streamPosition fmod s else (0, s) in
    (fst p, snd (cleanupResources fmod (snd p))).
Proof.
  destruct s as [sys sd ch info lsf st log].
  unfold stopPlayback. unfold_monad.
  destruct (PlaybackState_eqb st STATE_UNINITIALIZED); [ reflexivity | ].
  destruct (state_rank st >=? state_rank STATE_PLAYING);
    [ destruct (ch =? NULL) | ]; unfold_monad.
  2: destruct (streamPosition fmod (mkSession sys sd ch info lsf st log))
       as [a b]; unfold_monad.
  all: match goal with
       | |- context [cleanupResources fmod ?x] =>
           destruct (cleanupResources fmod x) as [[] c]
       end; reflexivity.
Qed.

Lemma PlaybackState_eqb_eq (a b : PlaybackState) :
  PlaybackState_eqb a b = true <-> a = b.
Proof.
  unfold PlaybackState_eqb. rewrite Z.eqb_eq.
  split; [ | now intros -> ].
  destruct a, b; simpl; intros H; try reflexivity; discriminate H.
Qed.

Lemma stopPlayback_state (s : Session) :
  currentState (snd (stopPlayback fmod s)) = STATE_UNINITIALIZED.
Proof.
  rewrite stopPlayback_unfold.
  destruct (PlaybackState_eqb (currentState s) STATE_UNINITIALIZED) eqn:E.
  - now apply PlaybackState_eqb_eq in E.
  - cbv zeta. simpl. apply cleanupResources_torn_down.
Qed.

(** [playbackInProgress] changes nothing but the log. *)
Lemma playbackInProgress_session (s : Session) :
  exists log,
    snd (playbackInProgress fmod s) =
      mkSession (fmsystem s) (sound s) (channel s) (soundInfo s)
        (lastStartFrame s) (currentState s) log.
Proof.
  destruct s as [sys sd ch info lsf st log].
  unfold playbackInProgress. unfold_monad. run_paths.
  all: eexists; reflexivity.
Qed.

Lemma exec_settled (o : Operation) (s : Session) :
  settled s -> settled (exec fmod o s).
Proof.
  intros Hs. destruct o as [f sf ef | | | ]; simpl.
  - destruct (startPlayback_outcome fmod f sf ef s)
      as [(_ & _ & Hst & _) | (_ & _ & _ & _ & _ & Hst)];
      unfold settled; rewrite Hst; exact I.
  - unfold settled. rewrite stopPlayback_state. exact I.
  - destruct (playing_valid_dec s) as [Hv | Hn].
    + destruct (streamPosition_valid fmod s Hv) as (res & out & _ & ->).
      exact Hs.
    + destruct (streamPosition_invalid fmod s Hn) as (st' & -> & [-> | (-> & Hnull)]).
      * exact Hs.
      * exact Hnull.
  - destruct (playbackInProgress_session s) as (log & ->). exact Hs.
Qed.

Lemma reachable_settled (s : Session) : reachable fmod s -> settled s.
Proof.
  induction 1 as [ | o s _ IH ].
  - exact I.
  - now apply exec_settled.
Qed.

(** Outside [STATE_PLAYING] a session between operations does not validate. *)
Lemma settled_not_playing (s : Session) :
  settled s -> currentState s <> STATE_PLAYING -> ~ playing_valid s.
Proof.
  unfold settled, playing_valid. intros Hs Hst (Hrank & Hsys & Hsd & Hch).
  destruct (currentState s); simpl in Hrank; try lia; try congruence; tauto.
Qed.

End SessionFacts.

Section QueryClaims.

Variable fmod : Engine.

(** C4, as the code has it: outside [STATE_PLAYING] (before any start, after
    a stop) [streamPosition] returns -1; in [STATE_PLAYING] with a live
    channel it returns the channel position minus the recorded start frame
    ([lastStartFrame]) taken modulo 2^32; that is the plain difference
    exactly when the difference lies in [0, 2^32), so in particular whenever
    the recorded start is not negative and the position is not below it;
    and a negative result is always -1. *)
Theorem streamPosition_contract (s : Session) :
  reachable fmod s ->
  let r := fst (streamPosition fmod s) in
  (currentState s <> STATE_PLAYING -> r = -1) /\
  fst (streamPosition fmod initial_session) = -1 /\
  fst (streamPosition fmod (snd (stopPlayback fmod s))) = -1 /\
  (currentState s = STATE_PLAYING ->
   fmsystem s <> NULL -> sound s <> NULL -> channel s <> NULL ->
   forall pos,
     fmod (FMOD_System_Update (fmsystem s) :: calls s)
       (FMOD_Channel_GetPosition (channel s)) = (FMOD_OK, Some pos) ->
     let frames := to_uint32 pos in
     r = to_uint32 (frames - lastStartFrame s) /\
     (0 <= frames - lastStartFrame s < two32 ->
      r = frames - lastStartFrame s) /\
     (r = frames - lastStartFrame s <->
      0 <= frames - lastStartFrame s < two32) /\
     (0 <= lastStartFrame s <= frames -> r = frames - lastStartFrame s)) /\
  (r < 0 -> r = -1).
Proof.
  intros Hreach. cbv zeta.
  assert (Hidle : forall t, currentState t = STATE_UNINITIALIZED ->
                            fst (streamPosition fmod t) = -1).
  { intros t Ht.
    destruct (streamPosition_invalid fmod t) as (st' & -> & _); [ | reflexivity ].
    unfold playing_valid. rewrite Ht. simpl. lia. }
  split; [ | split; [ | split; [ | split ] ] ].
  - intros Hst.
    destruct (streamPosition_invalid fmod s) as (st' & -> & _); [ | reflexivity ].
    apply settled_not_playing; [ now apply (reachable_settled fmod) | exact Hst ].
  - now apply Hidle.
  - apply Hidle, stopPlayback_state.
  - intros Hst Hsys Hsd Hch pos Hpos.
    destruct (streamPosition_valid fmod s) as (res & out & E & ->).
    { unfold playing_valid. rewrite Hst. simpl. repeat split; auto; lia. }
    rewrite Hpos in E. inversion E; subst res out. simpl.
    change (written (Some pos) 0) with pos.
    pose proof (to_uint32_range (to_uint32 pos - lastStartFrame s)) as Hr.
    pose proof (to_uint32_range pos) as Hf. unfold uint32_range in Hr, Hf.
    split; [ reflexivity | ].
    split; [ intros Hrange; now apply to_uint32_small | ].
    split.
    + split; [ intros Heq; rewrite Heq in Hr; exact Hr
             | intros Hrange; now apply to_uint32_small ].
    + intros Hstart. apply to_uint32_small. unfold uint32_range. lia.
  - intros Hneg.
    destruct (streamPosition_result_range fmod s) as [H | H]; [ exact H | lia ].
Qed.

(** C10: in [STATE_PLAYING] the result is -1 or fits 32 bits; when the query
    is not a genuine error the result is the position minus the recorded
    start modulo 2^32, and when the position is below the recorded start
    that is the difference plus 2^32, a value above 2^31 and not the negative
    difference.  An invalidated channel leaves the position at 0. *)
Theorem streamPosition_unsigned (s : Session) :
  currentState s = STATE_PLAYING ->
  int32_range (lastStartFrame s) ->
  let r := fst (streamPosition fmod s) in
  (r = -1 \/ 0 <= r < two32) /\
  (fmsystem s <> NULL -> sound s <> NULL -> channel s <> NULL ->
   forall res out,
     fmod (FMOD_System_Update (fmsystem s) :: calls s)
       (FMOD_Channel_GetPosition (channel s)) = (res, out) ->
     (exceptional res = true -> r = -1) /\
     (exceptional res = false ->
      let frames := to_uint32 (written out 0) in
      (out = None -> frames = 0) /\
      r = to_uint32 (frames - lastStartFrame s) /\
      (frames < lastStartFrame s ->
       r = frames - lastStartFrame s + two32 /\
       2 ^ 31 < r /\
       r <> frames - lastStartFrame s))).
Proof.
  intros Hst Hlsf. cbv zeta.
  split; [ apply streamPosition_result_range | ].
  intros Hsys Hsd Hch res out Hpos.
  destruct (streamPosition_valid fmod s) as (res' & out' & E & ->).
  { unfold playing_valid. rewrite Hst. simpl. repeat split; auto; lia. }
  rewrite Hpos in E. inversion E; subst res' out'. simpl.
  split; intros Hres; rewrite Hres; [ reflexivity | ].
  split; [ intros ->; reflexivity | ].
  split; [ reflexivity | ].
  intros Hbelow.
  pose proof (to_uint32_range (written out 0)) as Hf.
  unfold int32_range, INT_MIN, INT_MAX in Hlsf.
  assert (Hwrap : to_uint32 (to_uint32 (written out 0) - lastStartFrame s)
                  = to_uint32 (written out 0) - lastStartFrame s + two32).
  { unfold to_uint32 at 1. symmetry.
    apply Z.mod_unique with (q := -1); unfold two32 in *; lia. }
  rewrite Hwrap. unfold two32 in *. lia.
Qed.

End QueryClaims.

Section StopClaims.

Variable fmod : Engine.


(** C8: no sound without a system and no channel without a sound.  The
    invariant holds of the initial session and, the engine keeping its
    contract, every operation preserves it: [startPlayback] however it ends,
    [stopPlayback], [streamPosition], [playbackInProgress] and teardown; so
    it holds of every session the operations reach. *)
Theorem handles_inv_preserved (s : Session) :
  engine_contract fmod ->
  handles_inv s ->
  handles_inv initial_session /\
  (forall f sf ef, handles_inv (snd (startPlayback fmod f sf ef s))) /\
  handles_inv (snd (stopPlayback fmod s)) /\
  handles_inv (snd (streamPosition fmod s)) /\
  handles_inv (snd (playbackInProgress fmod s)) /\
  handles_inv (snd (cleanupResources fmod s)) /\
  (forall t, reachable fmod t -> handles_inv t).
Proof.
  intros Hc.
  assert (Hinit : handles_inv initial_session).
  { split; intros H; now contradiction H. }
  assert (Htorn : forall t, torn_down t -> handles_inv t).
  { intros t (Hsys & Hsd & Hch & _). unfold handles_inv.
    rewrite Hsys, Hsd, Hch. tauto. }
  assert (Hstep : forall t o, handles_inv t -> handles_inv (exec fmod o t)).
  { intros t o Ht. destruct o as [f sf ef | | | ]; simpl.
    - destruct (startPlayback_outcome fmod f sf ef t)
        as [(Hr & Hrange & _) | (_ & Htd)]; [ | now apply Htorn ].
      destruct (startPlayback_success_handles fmod f sf ef t Hc Hr)
        as (H1 & H2 & H3).
      split; auto.
    - rewrite stopPlayback_unfold.
      destruct (PlaybackState_eqb (currentState t) STATE_UNINITIALIZED);
        [ exact Ht | ].
      cbv zeta. simpl. apply Htorn, cleanupResources_torn_down.
    - destruct (playing_valid_dec t) as [Hv | Hn].
      + destruct (streamPosition_valid fmod t Hv) as (res & out & _ & ->).
        exact Ht.
      + destruct (streamPosition_invalid fmod t Hn) as (st' & -> & _). exact Ht.
    - destruct (playbackInProgress_session fmod t) as (log & ->). exact Ht. }
  intros Hs.
  split; [ exact Hinit | ].
  split; [ intros f sf ef; exact (Hstep s (OpStart f sf ef) Hs) | ].
  split; [ exact (Hstep s OpStop Hs) | ].
  split; [ exact (Hstep s OpPosition Hs) | ].
  split; [ exact (Hstep s OpInProgress Hs) | ].
  split; [ apply Htorn, cleanupResources_torn_down | ].
  induction 1 as [ | o t _ IH ]; [ exact Hinit | now apply Hstep ].
Qed.

End StopClaims.

(** * The claims on concrete runs *)

(** C2 on a 44100 Hz file played from frame 0 to frame 44100. *)
Lemma startPlayback_success_playing_witness :
  let s' := started (good_engine 44100 48000 0) 0 44100 in
  currentState s' = STATE_PLAYING /\
  fmsystem s' <> NULL /\ sound s' <> NULL /\ channel s' <> NULL.
Proof.
  apply (startPlayback_success_playing (good_engine 44100 48000 0) song 0 44100
           initial_session).
  - apply good_engine_contract.
  - lia.
  - vm_compute. reflexivity.
Defined.

(** C3 on the window from frame 10 to frame 5, asked of a playing session. *)
Lemma startPlayback_invalid_range_witness :
  let fmod := good_engine 44100 48000 0 in
  let s := started fmod 0 44100 in
  let r := fst (startPlayback fmod song 10 5 s) in
  let s' := snd (startPlayback fmod song 10 5 s) in
  r = -1 /\ r < 0 /\
  currentState s' = STATE_UNINITIALIZED /\
  fmsystem s' = NULL /\ sound s' = NULL /\ channel s' = NULL /\
  (exists rel, calls s' = rel ++ calls s /\ forallb is_release rel = true) /\
  startPlayback fmod song 10 5 s =
    (-1,
     snd (cleanupResources fmod
            (if PlaybackState_eqb (currentState s) STATE_UNINITIALIZED then s
             else snd (cleanupResources fmod s)))).
Proof.
  apply (startPlayback_invalid_range (good_engine 44100 48000 0) song 10 5
           (started (good_engine 44100 48000 0) 0 44100)).
  vm_compute. discriminate.
Defined.

Lemma started_reachable (fmod : Engine) (startFrame endFrame : Z) :
  reachable fmod (started fmod startFrame endFrame).
Proof.
  unfold started.
  exact (reach_step fmod (OpStart song startFrame endFrame) initial_session
           (reach_init fmod)).
Qed.

(** C4 before any start, and while playing from frame 100 with the channel
    at frame 150. *)
Lemma streamPosition_contract_witness :
  let fmod := good_engine 44100 48000 150 in
  fst (streamPosition fmod initial_session) = -1 /\
  fst (streamPosition fmod (started fmod 100 44100)) = 50.
Proof.
  cbv zeta. split.
  - destruct (streamPosition_contract (good_engine 44100 48000 150)
                initial_session (reach_init _)) as (Hidle & _).
    apply Hidle. intros H. discriminate H.
  - destruct (streamPosition_contract (good_engine 44100 48000 150)
                (started (good_engine 44100 48000 150) 100 44100)
                (started_reachable _ 100 44100))
      as (_ & _ & _ & Hplay & _).
    assert (Hst : currentState (started (good_engine 44100 48000 150) 100 44100)
                  = STATE_PLAYING) by (vm_compute; reflexivity).
    assert (Hsys : fmsystem (started (good_engine 44100 48000 150) 100 44100)
                   <> NULL) by (vm_compute; discriminate).
    assert (Hsd : sound (started (good_engine 44100 48000 150) 100 44100)
                  <> NULL) by (vm_compute; discriminate).
    assert (Hch : channel (started (good_engine 44100 48000 150) 100 44100)
                  <> NULL) by (vm_compute; discriminate).
    assert (Hpos : good_engine 44100 48000 150
                     (FMOD_System_Update
                        (fmsystem (started (good_engine 44100 48000 150) 100 44100))
                      :: calls (started (good_engine 44100 48000 150) 100 44100))
                     (FMOD_Channel_GetPosition
                        (channel (started (good_engine 44100 48000 150) 100 44100)))
                   = (FMOD_OK, Some 150)) by reflexivity.
    destruct (Hplay Hst Hsys Hsd Hch 150 Hpos) as (_ & Hexact & _).
    etransitivity; [ apply Hexact | vm_compute; reflexivity ].
    vm_compute. split; [ discriminate | reflexivity ].
Defined.

(** C4 as stated fails when the start frame does not fit an [int].  A
    start at frame 2^31 is recorded as -2^31 and the engine is told to seek
    to frame 2^31; with the live channel 50 frames further, at 2^31 + 50,
    the result is 50, not the position minus the recorded start
    (2^32 + 50).  A start at frame 3 * 2^31 is recorded and sought the same
    way, and the result 50 is neither the position minus the recorded start
    nor the position minus the requested start. *)
Lemma streamPosition_not_plain_difference :
  let position := 2 ^ 31 + 50 in
  let fmod := good_engine 44100 48000 position in
  let s := started fmod (2 ^ 31) (2 ^ 31 + 44100) in
  let s3 := started fmod (3 * 2 ^ 31) (3 * 2 ^ 31 + 44100) in
  (currentState s = STATE_PLAYING /\ channel s <> NULL /\
   lastStartFrame s = - 2 ^ 31 /\
   initialseekposition (soundInfo s) = 2 ^ 31 /\
   fmod (FMOD_System_Update (fmsystem s) :: calls s)
     (FMOD_Channel_GetPosition (channel s)) = (FMOD_OK, Some position) /\
   initialseekposition (soundInfo s) <= position /\
   fst (streamPosition fmod s) = 50 /\
   fst (streamPosition fmod s) <> position - lastStartFrame s) /\
  (currentState s3 = STATE_PLAYING /\ channel s3 <> NULL /\
   lastStartFrame s3 = - 2 ^ 31 /\
   initialseekposition (soundInfo s3) = 2 ^ 31 /\
   fmod (FMOD_System_Update (fmsystem s3) :: calls s3)
     (FMOD_Channel_GetPosition (channel s3)) = (FMOD_OK, Some position) /\
   initialseekposition (soundInfo s3) <= position /\
   fst (streamPosition fmod s3) = 50 /\
   fst (streamPosition fmod s3) <> position - lastStartFrame s3 /\
   fst (streamPosition fmod s3) <> position - 3 * 2 ^ 31).
Proof.
  cbv zeta.
  split; repeat split; try (vm_compute; reflexivity); vm_compute; discriminate.
Qed.

(** C5 on a file that cannot be opened: the stream code -3. *)
Lemma startPlayback_error_codes_witness :
  let r := fst (startPlayback fileless_engine song 0 44100 initial_session) in
  let s' := snd (startPlayback fileless_engine song 0 44100 initial_session) in
  r = -3 /\ failure_class (calls s') = StreamError /\
  r = status_of (failure_class (calls s')).
Proof.
  cbv zeta.
  destruct (startPlayback_error_codes fileless_engine song 0 44100 initial_session)
    as (_ & (new & Hnew & Hfail) & _).
  simpl calls in Hnew at 2. rewrite app_nil_r in Hnew. rewrite Hnew.
  destruct Hfail as (Hr & _); [ vm_compute; discriminate | ].
  split; [ vm_compute; reflexivity | ].
  split; [ rewrite <- Hnew; vm_compute; reflexivity | exact Hr ].
Defined.

(** C5 as stated fails: a range error and a failure to create the engine
    return the same code. *)
Lemma error_codes_not_distinct :
  let range_code :=
    fst (startPlayback (good_engine 44100 48000 0) song 10 5 initial_session) in
  let engine_code :=
    fst (startPlayback dead_engine song 0 44100 initial_session) in
  range_code = -1 /\ engine_code = -1 /\ ~ range_code <> engine_code.
Proof.
  cbv zeta. repeat split; try (vm_compute; reflexivity).
  intros H. apply H. vm_compute. reflexivity.
Qed.



(** C7 on the start frame -5. *)
Lemma startPlayback_negative_start_witness :
  let fmod := good_engine 44100 48000 0 in
  let r := fst (startPlayback fmod song (-5) 44100 initial_session) in
  let s' := snd (startPlayback fmod song (-5) 44100 initial_session) in
  r = 0 /\
  startPlayback fmod song (-5) 44100 initial_session =
    startPlayback fmod song 0 44100 initial_session /\
  lastStartFrame s' = 0 /\
  initialseekposition (soundInfo s') = 0.
Proof.
  cbv zeta.
  destruct (startPlayback_negative_start (good_engine 44100 48000 0) song (-5)
              44100 initial_session)
    as (Heq & _ & _ & Hl & Hseek & _); [ lia | ].
  assert (Hr : fst (startPlayback (good_engine 44100 48000 0) song (-5) 44100
                      initial_session) = 0) by (vm_compute; reflexivity).
  split; [ exact Hr | ].
  split; [ exact Heq | ].
  split; [ exact Hl | exact (Hseek Hr) ].
Defined.

(** C8 on a playing session. *)
Lemma handles_inv_preserved_witness :
  let fmod := good_engine 44100 48000 0 in
  let s := started fmod 0 44100 in
  handles_inv s /\
  handles_inv (snd (stopPlayback fmod s)) /\
  handles_inv (snd (streamPosition fmod s)) /\
  handles_inv (snd (startPlayback fmod song 10 5 s)).
Proof.
  cbv zeta.
  assert (Hs : handles_inv (started (good_engine 44100 48000 0) 0 44100)).
  { split; intros _; vm_compute; discriminate. }
  destruct (handles_inv_preserved (good_engine 44100 48000 0)
              (started (good_engine 44100 48000 0) 0 44100)
              (good_engine_contract 44100 48000 0) Hs)
    as (_ & Hstart & Hstop & Hpos & _).
  split; [ exact Hs | ].
  split; [ exact Hstop | ].
  split; [ exact Hpos | exact (Hstart song 10 5) ].
Defined.

(** C9 on the start frame 2^31. *)
Lemma lastStartFrame_truncated_witness :
  let s' := started (good_engine 44100 48000 0) (2 ^ 31) (2 ^ 31 + 44100) in
  int32_range (lastStartFrame s') /\
  lastStartFrame s' <> 2 ^ 31 /\
  lastStartFrame s' = to_int32 (2 ^ 31) /\
  lastStartFrame s' mod two32 = 2 ^ 31 mod two32.
Proof.
  cbv zeta.
  destruct (lastStartFrame_truncated (good_engine 44100 48000 0) song (2 ^ 31)
              (2 ^ 31 + 44100) initial_session)
    as (Hrange & Hne & Hok & _); [ lia | ].
  split; [ exact Hrange | ].
  split; [ exact Hne | ].
  apply Hok. vm_compute. reflexivity.
Defined.

(** C10 on a session playing from frame 100 whose channel has finished. *)
Lemma streamPosition_unsigned_witness :
  let s := started finished_engine 100 44100 in
  fst (streamPosition finished_engine s) = 0 - 100 + two32 /\
  2 ^ 31 < fst (streamPosition finished_engine s).
Proof.
  cbv zeta.
  destruct (streamPosition_unsigned finished_engine
              (started finished_engine 100 44100))
    as (_ & Hquery).
  - vm_compute. reflexivity.
  - vm_compute. split; discriminate.
  - destruct (Hquery) with (res := FMOD_ERR_INVALID_HANDLE) (out := @None Z)
      as (_ & Hok); try (vm_compute; discriminate); try reflexivity.
    destruct Hok as (_ & _ & Hbelow); [ reflexivity | ].
    destruct Hbelow as (Hr & Hbig & _); [ vm_compute; reflexivity | ].
    split; [ exact Hr | exact Hbig ].
Defined.

(** * More of the library *)

(** ** Teardown *)

Lemma cleanupResources_run (fmod : Engine) (s : Session) :
  cleanupResources fmod s =
    (tt, mkSession NULL NULL NULL (soundInfo s) 0 STATE_UNINITIALIZED
           (release_calls s ++ calls s)).
Proof.
  destruct s as [sys sd ch info lsf st log].
  unfold cleanupResources, release_calls. unfold_monad.
  destruct (sd =? NULL) eqn:Hs; destruct (sys =? NULL) eqn:Hy; unfold_monad;
    try (apply Z.eqb_eq in Hs; subst sd); try (apply Z.eqb_eq in Hy; subst sys);
    reflexivity.
Qed.

Ltac use_cleanup_run :=
  match goal with
  | |- context [cleanupResources ?f ?s] =>
      rewrite (cleanupResources_run f s); unfold release_calls; unfold_monad
  end.

Ltac run_paths_exactly := repeat first [ use_cleanup_run | split_one ].

Ltac idle_paths :=
  unfold startPlayback, PlaybackState_eqb; unfold_monad;
  change (state_rank STATE_UNINITIALIZED =? state_rank STATE_UNINITIALIZED)
    with true;
  cbv beta iota; run_paths.

Section TeardownFacts.

Variable fmod : Engine.

(** X1.  Teardown releases what the session holds and nothing else: the
    sound, if any, is released first, then the system, if any, is closed and
    released (reverse order of creation); the channel is never released.
    Whatever the engine replies, the session ends torn down, with
    [soundInfo] left as it was; with no handle held no call is made. *)
Theorem cleanupResources_releases (s : Session) :
  let s' := snd (cleanupResources fmod s) in
  calls s' = release_calls s ++ calls s /\
  soundInfo s' = soundInfo s /\
  torn_down s' /\
  (fmsystem s = NULL -> sound s = NULL -> calls s' = calls s) /\
  (forall c, In c (release_calls s) ->
     c = FMOD_Sound_Release (sound s) \/
     c = FMOD_System_Close (fmsystem s) \/
     c = FMOD_System_Release (fmsystem s)).
Proof.
  cbv zeta. rewrite cleanupResources_run. simpl snd.
  split; [ reflexivity | ]. split; [ reflexivity | ].
  split; [ repeat split | ].
  split.
  - intros Hsys Hsd. unfold calls at 1, release_calls. now rewrite Hsys, Hsd.
  - intros c. unfold release_calls.
    destruct (fmsystem s =? NULL); destruct (sound s =? NULL); simpl;
      intuition auto.
Qed.

(** X2.  A second teardown in a row makes no engine call and changes
    nothing. *)
Theorem cleanupResources_idempotent (s : Session) :
  cleanupResources fmod (snd (cleanupResources fmod s)) =
    (tt, snd (cleanupResources fmod s)).
Proof.
  rewrite (cleanupResources_run fmod s). simpl snd.
  rewrite cleanupResources_run. reflexivity.
Qed.

End TeardownFacts.

(** X3.  Teardown does not depend on what the engine replies to the
    releases: a failed release neither stops it nor changes its outcome. *)
Theorem cleanupResources_engine_independent
    (fmod1 fmod2 : Engine) (s : Session) :
  cleanupResources fmod1 s = cleanupResources fmod2 s.
Proof.
  rewrite (cleanupResources_run fmod1 s), (cleanupResources_run fmod2 s).
  reflexivity.
Qed.

(** ** State validation *)

(** X4.  [validateState] returns 1 exactly when the state is at least the
    expected one and the handles that state requires are present, and then
    changes nothing; when it returns 0 it leaves the session alone too,
    except that a state high enough with a handle missing becomes
    [STATE_ERROR].  The handles, the start offset and the log are never
    touched. *)
Theorem validateState_spec (expected : PlaybackState) (s : Session) :
  let ok := fst (validateState expected s) in
  let s' := snd (validateState expected s) in
  (ok = 1 \/ ok = 0) /\
  (ok = 1 <->
   state_rank expected <= state_rank (currentState s) /\
   required_present expected s) /\
  (ok = 1 -> s' = s) /\
  s' = mkSession (fmsystem s) (sound s) (channel s) (soundInfo s)
         (lastStartFrame s) (currentState s') (calls s) /\
  (currentState s' = currentState s \/
   currentState s' = STATE_ERROR /\
   state_rank expected <= state_rank (currentState s) /\
   ~ required_present expected s).
Proof.
  destruct s as [sys sd ch info lsf st log]. cbv zeta.
  unfold validateState, required_present.
  destruct expected; simpl; unfold_monad; run_paths; reflect_tests; simpl in *.
  all: repeat split; auto; try lia; try discriminate; try tauto.
  all: try (intros; exfalso; intuition lia).
  all: try (right; repeat split; auto; try lia; intuition lia).
Qed.

(** ** Starting *)

Section StartMore.

Variable fmod : Engine.

(** X5.  Starting on a session that is not idle is tearing it down and then
    starting: the old sound and system are released before the new system is
    created. *)
Theorem startPlayback_restart (f : string) (sf ef : Z) (s : Session) :
  currentState s <> STATE_UNINITIALIZED ->
  startPlayback fmod f sf ef s =
    startPlayback fmod f sf ef (snd (cleanupResources fmod s)).
Proof.
  intros Hst.
  assert (E : PlaybackState_eqb (currentState s) STATE_UNINITIALIZED = false).
  { destruct (PlaybackState_eqb (currentState s) STATE_UNINITIALIZED) eqn:E;
      [ apply PlaybackState_eqb_eq in E; contradiction | reflexivity ]. }
  assert (E' : PlaybackState_eqb
                 (currentState (snd (cleanupResources fmod s)))
                 STATE_UNINITIALIZED = true).
  { rewrite cleanupResources_run. reflexivity. }
  unfold startPlayback.
  match goal with |- bind _ ?k _ = _ => set (K := k) end.
  unfold bind at 1 2, get. subst K. cbv beta iota.
  rewrite E, E'. cbv beta iota delta [negb].
  match goal with |- bind _ ?k _ = _ => set (K := k) end.
  unfold bind, ret.
  destruct (cleanupResources fmod s) as [[] s1]. reflexivity.
Qed.

(** X6.  A start succeeds whole or not at all: it returns 0 with the session
    in [STATE_PLAYING], or it returns -1 or -3 with the session torn down,
    whichever call failed; so the status is 0 exactly when the session is
    left in [STATE_PLAYING]. *)
Theorem startPlayback_all_or_nothing (f : string) (sf ef : Z) (s : Session) :
  let r := fst (startPlayback fmod f sf ef s) in
  let s' := snd (startPlayback fmod f sf ef s) in
  (r = 0 /\ currentState s' = STATE_PLAYING /\ Z.max 0 sf < ef \/
   (r = -1 \/ r = -3) /\ torn_down s') /\
  (r = 0 <-> currentState s' = STATE_PLAYING) /\
  (r <> 0 <-> currentState s' = STATE_UNINITIALIZED).
Proof.
  cbv zeta.
  destruct (startPlayback_outcome fmod f sf ef s)
    as [(Hr & Hrange & Hst & _) | (Hc & Htd)].
  - split; [ left; auto | ]. rewrite Hr, Hst.
    split; split; intros H; try reflexivity; try discriminate H.
    now contradiction H.
  - pose proof Htd as (_ & _ & _ & _ & Hst).
    split; [ right; auto | ]. rewrite Hst.
    split; split; intros H; try reflexivity; try discriminate H; lia.
Qed.

(** X7.  On an engine none of whose checked calls fails, every start with a
    window that is not empty succeeds; a stolen or invalidated channel
    reported by the volume or pause call does not count as a failure, and
    the replies to the clock query and to the final update are not looked
    at. *)
Theorem startPlayback_healthy (f : string) (sf ef : Z) (s : Session) :
  healthy fmod ->
  Z.max 0 sf < ef ->
  fst (startPlayback fmod f sf ef s) = 0 /\
  currentState (snd (startPlayback fmod f sf ef s)) = STATE_PLAYING.
Proof.
  intros (H1 & H2 & H3 & H4 & H5 & H6 & H7 & H8 & H9 & H10) Hrange.
  destruct (startPlayback_outcome fmod f sf ef s)
    as [(Hr & _ & Hst & _) | (Hc & _)]; [ split; assumption | exfalso ].
  assert (Hne : fst (startPlayback fmod f sf ef s) <> 0) by lia.
  clear Hc. revert Hne.
  destruct s as [sys sd ch info lsf st log].
  start_paths; intros Hne; try (now contradiction Hne); reflect_tests; try lia.
  all: repeat match goal with
       | E : fmod ?l ?c = (?r, _) |- _ =>
           lazymatch r with
           | FMOD_OK => fail
           | _ => let F := fresh in
                  first [ pose proof (H1 l) as F; rewrite E in F
                        | epose proof (H3 l _ _ _) as F; rewrite E in F
                        | epose proof (H4 l _) as F; rewrite E in F
                        | epose proof (H5 l _ _ _) as F; rewrite E in F
                        | epose proof (H6 l _) as F; rewrite E in F
                        | epose proof (H7 l _) as F; rewrite E in F ];
                  simpl in F; subst r
           end
       end.
  all: try (simpl in *; discriminate).
  all: try match goal with
       | E : FMOD_RESULT_eqb _ FMOD_OK = false |- _ =>
           first [ rewrite H2 in E | rewrite H8 in E ]; simpl in E;
           discriminate E
       | E : exceptional _ = true |- _ =>
           first [ rewrite H9 in E | rewrite H10 in E ]; discriminate E
       end.
Qed.

(** X8.  An empty window asked of an idle session: -1, no engine call, and
    the session exactly as it was. *)
Theorem startPlayback_empty_window_idle (f : string) (sf ef : Z) (s : Session) :
  torn_down s ->
  ef <= Z.max 0 sf ->
  startPlayback fmod f sf ef s = (-1, s).
Proof.
  destruct s as [sys sd ch info lsf st log].
  intros (Hsys & Hsd & Hch & Hlsf & Hst) Hrange. simpl in *. subst.
  assert (Hclamp : (if sf <? 0 then 0 else sf) = Z.max 0 sf).
  { destruct (sf <? 0) eqn:E;
      [ apply Z.ltb_lt in E | apply Z.ltb_ge in E ]; lia. }
  apply Z.leb_le in Hrange.
  unfold startPlayback, PlaybackState_eqb. unfold_monad.
  change (state_rank STATE_UNINITIALIZED =? state_rank STATE_UNINITIALIZED)
    with true.
  cbv beta iota. rewrite Hclamp, Hrange.
  rewrite cleanupResources_run. reflexivity.
Qed.

(** X9.  A successful start on an idle session makes thirteen calls, in this
    order and on the handles the session ends with: create and initialise
    the system (32 channels), open the sound on the file with the seek
    position, ask its format, play it paused, ask the buffer size, the
    output format and the clock, schedule the start and then the stop, set
    the volume, release the pause and tick the engine.  The channel is
    unpaused only after both delays are set, nothing is released, and the
    start is scheduled at the clock plus twice the buffer size. *)
Theorem startPlayback_success_script (f : string) (sf ef : Z) (s : Session) :
  currentState s = STATE_UNINITIALIZED ->
  fst (startPlayback fmod f sf ef s) = 0 ->
  let s' := snd (startPlayback fmod f sf ef s) in
  let sys := fmsystem s' in
  let sd := sound s' in
  let ch := channel s' in
  exists hi1 lo1 hi2 lo2 r2 bufferlength r4 hi0 lo0,
    let new :=
      [FMOD_System_Update sys;
       FMOD_Channel_SetPaused ch 0;
       FMOD_Channel_SetVolume ch;
       FMOD_Channel_SetDelay ch hi2 lo2 0;
       FMOD_Channel_SetDelay ch hi1 lo1 1;
       FMOD_System_GetDSPClock sys;
       FMOD_System_GetSoftwareFormat sys;
       FMOD_System_GetDSPBufferSize sys;
       FMOD_System_PlaySound sys sd 1;
       FMOD_Sound_GetDefaults sd;
       FMOD_System_CreateSound sys f (soundInfo s');
       FMOD_System_Init sys 32;
       FMOD_System_Create] in
    calls s' = new ++ calls s /\
    answered fmod (calls s) new
      (FMOD_System_GetDSPBufferSize sys) (r2, bufferlength) /\
    answered fmod (calls s) new
      (FMOD_System_GetDSPClock sys) (r4, (hi0, lo0)) /\
    (hi1, lo1) =
      FMOD_64BIT_ADD (to_uint32 hi0) (to_uint32 lo0) 0
        (to_uint32 (to_uint32 bufferlength * 2)).
Proof.
  destruct s as [sys sd ch info lsf st log]. simpl currentState.
  intros ->. cbv zeta.
  idle_paths; intros Hr; try discriminate Hr.
  all: do 9 eexists; split; [ reflexivity | ].
  all: split; [ show_answered | ].
  all: split; [ show_answered | ].
  all: symmetry; eassumption.
Qed.

(** X10.  A failed start leaks nothing: on an idle session, if
    [FMOD_System_Create] wrote a handle and the start fails afterwards,
    whichever call fails, the last two calls of the run close and release
    that system; and if the run went on to open the sound and that wrote a
    handle, the sound is released just before (reverse order of
    creation). *)
Theorem startPlayback_failure_releases
    (f : string) (sf ef : Z) (s : Session) (res : FMOD_RESULT) (h : handle) :
  currentState s = STATE_UNINITIALIZED ->
  Z.max 0 sf < ef ->
  fmod (calls s) FMOD_System_Create = (res, Some h) ->
  h <> NULL ->
  fst (startPlayback fmod f sf ef s) <> 0 ->
  let s' := snd (startPlayback fmod f sf ef s) in
  let info := mkExInfo (to_uint32 (Z.max 0 sf)) FMOD_TIMEUNIT_PCM in
  (exists rest,
     calls s' =
       FMOD_System_Release h :: FMOD_System_Close h :: rest ++ calls s) /\
  (forall res2 h2,
     res = FMOD_OK ->
     fmod (FMOD_System_Create :: calls s) (FMOD_System_Init h 32) = FMOD_OK ->
     fmod (FMOD_System_Init h 32 :: FMOD_System_Create :: calls s)
       (FMOD_System_CreateSound h f info) = (res2, Some h2) ->
     h2 <> NULL ->
     exists rest,
       calls s' =
         FMOD_System_Release h :: FMOD_System_Close h
         :: FMOD_Sound_Release h2 :: rest ++ calls s).
Proof.
  destruct s as [sys sd ch info0 lsf st log]. simpl currentState. simpl calls.
  intros -> Hrange Hcreate Hh. cbv zeta.
  assert (Hhb : (h =? NULL) = false) by now apply Z.eqb_neq.
  assert (Hclamp : (if sf <? 0 then 0 else sf) = Z.max 0 sf).
  { destruct (sf <? 0) eqn:E;
      [ apply Z.ltb_lt in E | apply Z.ltb_ge in E ]; lia. }
  assert (Hle : (ef <=? Z.max 0 sf) = false) by now apply Z.leb_gt.
  unfold startPlayback, PlaybackState_eqb. unfold_monad.
  change (state_rank STATE_UNINITIALIZED =? state_rank STATE_UNINITIALIZED)
    with true.
  cbv beta iota. rewrite Hclamp, Hle, Hcreate. unfold_monad.
  change (written (Some h) sys) with h.
  run_paths_exactly; intros Hne; try (now contradiction Hne).
  all: rewrite ?Hhb in *; simpl app.
  all: split;
    [ eexists; do 2 f_equal; find_extension
    | intros res2 h2 Hres Hinit Hsound Hh2; try subst res ].
  all: try (simpl in *; discriminate).
  all: try match goal with
       | E : FMOD_RESULT_eqb (fmod _ (FMOD_System_Init _ _)) _ = false |- _ =>
           rewrite Hinit in E; simpl in E; discriminate E
       end.
  all: inversion Hsound; subst.
  all: change (written (Some h2) sd) with h2 in *.
  all: reflect_tests; try contradiction.
  all: eexists; do 3 f_equal; find_extension.
Qed.

End StartMore.

(** ** Queries *)

Section QueryMore.

Variable fmod : Engine.

(** X11.  [playbackInProgress] below [STATE_PLAYING] or without a channel:
    the answer is 0, the engine is not called and nothing changes.  This is
    the case before any start, after every stop and after every failed
    start. *)
Theorem playbackInProgress_idle (s : Session) :
  state_rank (currentState s) < state_rank STATE_PLAYING \/ channel s = NULL ->
  playbackInProgress fmod s = (0, s).
Proof.
  destruct s as [sys sd ch info lsf st log]. simpl.
  intros H. unfold playbackInProgress. unfold_monad.
  destruct (state_rank st <? state_rank STATE_PLAYING) eqn:Hst; [ reflexivity | ].
  destruct (ch =? NULL) eqn:Hch; [ reflexivity | ].
  apply Z.ltb_ge in Hst. apply Z.eqb_neq in Hch. simpl in *. lia.
Qed.

(** X12.  [playbackInProgress] otherwise: one call, [FMOD_Channel_IsPlaying]
    on the session's channel, and no change to the session but the log.  A
    genuine error gives 0; a reply that leaves the out-parameter untouched
    (as for a stolen or invalid channel) gives 0 too; else the answer is
    what the engine wrote. *)
Theorem playbackInProgress_query (s : Session) :
  state_rank STATE_PLAYING <= state_rank (currentState s) ->
  channel s <> NULL ->
  let reply := fmod (calls s) (FMOD_Channel_IsPlaying (channel s)) in
  playbackInProgress fmod s =
    (if exceptional (fst reply) then 0 else to_int32 (written (snd reply) 0),
     mkSession (fmsystem s) (sound s) (channel s) (soundInfo s)
       (lastStartFrame s) (currentState s)
       (FMOD_Channel_IsPlaying (channel s) :: calls s)) /\
  (snd reply = None -> fst (playbackInProgress fmod s) = 0).
Proof.
  destruct s as [sys sd ch info lsf st log]. cbv zeta.
  unfold currentState, channel, calls, fmsystem, sound, soundInfo, lastStartFrame.
  intros Hst Hch. apply Z.ltb_ge in Hst. apply Z.eqb_neq in Hch.
  unfold playbackInProgress. unfold_monad. rewrite Hst, Hch.
  destruct (fmod log (FMOD_Channel_IsPlaying ch)) as [res out].
  split.
  - destruct (exceptional res); reflexivity.
  - intros ->. destruct (exceptional res); reflexivity.
Qed.

(** X13.  [streamPosition] when validation fails: -1, no engine call, and
    nothing changed except that the state may have become [STATE_ERROR];
    below [STATE_PLAYING] not even that. *)
Theorem streamPosition_silent (s : Session) :
  ~ playing_valid s ->
  fst (streamPosition fmod s) = -1 /\
  snd (streamPosition fmod s) =
    mkSession (fmsystem s) (sound s) (channel s) (soundInfo s)
      (lastStartFrame s) (currentState (snd (streamPosition fmod s))) (calls s) /\
  (state_rank (currentState s) < state_rank STATE_PLAYING ->
   snd (streamPosition fmod s) = s).
Proof.
  intros Hn. split; [ | split ].
  - destruct (streamPosition_invalid fmod s Hn) as (st' & -> & _). reflexivity.
  - destruct (streamPosition_invalid fmod s Hn) as (st' & -> & _). reflexivity.
  - intros Hlow. apply Z.ltb_lt in Hlow.
    destruct s as [sys sd ch info lsf st log].
    unfold streamPosition, validateState. unfold_monad.
    unfold currentState in Hlow. rewrite Hlow. reflexivity.
Qed.

(** X14.  [streamPosition] when validation passes: the engine is ticked
    first ([FMOD_System_Update]) and then asked for the position, in that
    order and once each, whatever the replies; the session is otherwise
    unchanged. *)
Theorem streamPosition_ticks (s : Session) :
  playing_valid s ->
  snd (streamPosition fmod s) =
    mkSession (fmsystem s) (sound s) (channel s) (soundInfo s)
      (lastStartFrame s) (currentState s)
      (FMOD_Channel_GetPosition (channel s)
       :: FMOD_System_Update (fmsystem s) :: calls s).
Proof.
  intros Hv. destruct (streamPosition_valid fmod s Hv) as (res & out & _ & ->).
  reflexivity.
Qed.

End QueryMore.

(** ** Sessions the operations reach *)

Lemma to_uint32_to_int32 (z : Z) : to_uint32 (to_int32 z) = to_uint32 z.
Proof. apply to_int32_congr. Qed.

Lemma to_uint32_sub_congr (a b : Z) :
  to_uint32 (a - b) = to_uint32 (a - to_uint32 b).
Proof. unfold to_uint32. now rewrite Zminus_mod_idemp_r. Qed.

Lemma playing_playing_valid (s : Session) : playing s -> playing_valid s.
Proof.
  intros (Hst & H1 & H2 & H3 & _). unfold playing_valid.
  rewrite Hst. simpl. repeat split; auto; lia.
Qed.

Section ReachMore.

Variable fmod : Engine.

Lemma startPlayback_success_playing_session
    (f : string) (sf ef : Z) (s : Session) :
  engine_contract fmod ->
  fst (startPlayback fmod f sf ef s) = 0 ->
  playing (snd (startPlayback fmod f sf ef s)) /\
  initialseekposition (soundInfo (snd (startPlayback fmod f sf ef s)))
    = to_uint32 (Z.max 0 sf).
Proof.
  intros Hc Hr.
  destruct (startPlayback_success_handles fmod f sf ef s Hc Hr) as (H1 & H2 & H3).
  destruct (startPlayback_outcome fmod f sf ef s)
    as [(_ & _ & Hst & Hl & Hi & _) | ([Hbad | Hbad] & _)];
    [ | rewrite Hr in Hbad; discriminate Hbad .. ].
  unfold playing. rewrite Hl, Hi. simpl.
  repeat split; auto; try apply to_int32_range.
  symmetry. apply to_uint32_to_int32.
Qed.

(** X15.  With an engine that keeps its contract, whatever the caller does
    the session is, between two operations, either torn down or playing with
    its three handles present: [STATE_ERROR] and the intermediate states are
    never observed, and the recorded start offset always fits an [int] and
    agrees with the seek position modulo 2^32. *)
Theorem reachable_idle_or_playing (s : Session) :
  engine_contract fmod ->
  reachable fmod s ->
  torn_down s \/ playing s.
Proof.
  intros Hc. induction 1 as [ | o s _ IH ].
  - left. repeat split.
  - destruct o as [f sf ef | | | ]; simpl.
    + destruct (startPlayback_outcome fmod f sf ef s)
        as [(Hr & _) | (_ & Htd)]; [ right | left; exact Htd ].
      now apply startPlayback_success_playing_session.
    + left. rewrite stopPlayback_unfold.
      destruct (PlaybackState_eqb (currentState s) STATE_UNINITIALIZED) eqn:E.
      * destruct IH as [Htd | (Hst & _)]; [ exact Htd | ].
        apply PlaybackState_eqb_eq in E. congruence.
      * cbv zeta. simpl. apply cleanupResources_torn_down.
    + destruct IH as [Htd | Hp].
      * left. pose proof Htd as (_ & _ & _ & _ & Hst).
        assert (Hlow : (state_rank (currentState s) <? state_rank STATE_PLAYING)
                       = true) by now rewrite Hst.
        destruct s as [sys sd ch info lsf st log].
        unfold streamPosition, validateState. unfold_monad.
        unfold currentState in Hlow. rewrite Hlow. exact Htd.
      * right.
        destruct (streamPosition_valid fmod s (playing_playing_valid s Hp))
          as (res & out & _ & ->).
        exact Hp.
    + destruct (playbackInProgress_session fmod s) as (log & ->). exact IH.
Qed.

(** X16.  After a successful start, [streamPosition] reports the position
    relative to the seek position given to the engine, for every start
    frame, also one that does not fit 32 bits: the result is the difference
    modulo 2^32, and the plain difference when the channel is at or beyond
    the seek position. *)
Theorem streamPosition_relative_to_seek
    (f : string) (sf ef : Z) (s : Session) (res : FMOD_RESULT) (out : option Z) :
  engine_contract fmod ->
  fst (startPlayback fmod f sf ef s) = 0 ->
  let s' := snd (startPlayback fmod f sf ef s) in
  fmod (FMOD_System_Update (fmsystem s') :: calls s')
    (FMOD_Channel_GetPosition (channel s')) = (res, out) ->
  exceptional res = false ->
  let frames := to_uint32 (written out 0) in
  let seek := initialseekposition (soundInfo s') in
  seek = to_uint32 (Z.max 0 sf) /\
  fst (streamPosition fmod s') = to_uint32 (frames - seek) /\
  (seek <= frames -> fst (streamPosition fmod s') = frames - seek).
Proof.
  intros Hc Hr. cbv zeta. intros Hpos Hres.
  destruct (startPlayback_success_playing_session f sf ef s Hc Hr)
    as (Hp & Hmax).
  pose proof Hp as (Hst & H1 & H2 & H3 & _ & Hseek).
  destruct (streamPosition_valid fmod (snd (startPlayback fmod f sf ef s))
              (playing_playing_valid _ Hp))
    as (res' & out' & E & ->).
  rewrite Hpos in E. inversion E; subst res' out'. simpl fst. rewrite Hres.
  split; [ exact Hmax | ].
  rewrite Hseek, <- to_uint32_sub_congr.
  split; [ reflexivity | ].
  intros Hle. rewrite to_uint32_sub_congr. apply to_uint32_small.
  pose proof (to_uint32_range (written out 0)).
  pose proof (to_uint32_range (lastStartFrame (snd (startPlayback fmod f sf ef s)))).
  lia.
Qed.

(** X17.  Stopping a playing session: the engine is ticked and asked for the
    position, the sound is released, the system is closed and released, in
    that order; the value returned is the one [streamPosition] reports; and
    on the session left behind a position query gives -1 and a progress
    query 0, both without calling the engine. *)
Theorem stopPlayback_playing (s : Session) :
  playing s ->
  let s' := snd (stopPlayback fmod s) in
  stopPlayback fmod s =
    (fst (streamPosition fmod s),
     mkSession NULL NULL NULL (soundInfo s) 0 STATE_UNINITIALIZED
       (FMOD_System_Release (fmsystem s) :: FMOD_System_Close (fmsystem s)
        :: FMOD_Sound_Release (sound s)
        :: FMOD_Channel_GetPosition (channel s)
        :: FMOD_System_Update (fmsystem s) :: calls s)) /\
  streamPosition fmod s' = (-1, s') /\
  playbackInProgress fmod s' = (0, s').
Proof.
  intros Hp. pose proof Hp as (Hst & Hsys & Hsd & Hch & _). cbv zeta.
  assert (E : stopPlayback fmod s =
    (fst (streamPosition fmod s),
     mkSession NULL NULL NULL (soundInfo s) 0 STATE_UNINITIALIZED
       (FMOD_System_Release (fmsystem s) :: FMOD_System_Close (fmsystem s)
        :: FMOD_Sound_Release (sound s)
        :: FMOD_Channel_GetPosition (channel s)
        :: FMOD_System_Update (fmsystem s) :: calls s))).
  { rewrite stopPlayback_unfold, Hst.
    apply Z.eqb_neq in Hch. rewrite Hch.
    change (PlaybackState_eqb STATE_PLAYING STATE_UNINITIALIZED) with false.
    change (state_rank STATE_PLAYING >=? state_rank STATE_PLAYING) with true.
    cbv beta iota zeta delta [andb negb].
    rewrite cleanupResources_run.
    destruct (streamPosition_valid fmod s (playing_playing_valid s Hp))
      as (res & out & _ & ->).
    unfold release_calls. simpl.
    apply Z.eqb_neq in Hsys, Hsd. rewrite Hsys, Hsd. reflexivity. }
  rewrite E. simpl snd.
  split; [ reflexivity | split ]; reflexivity.
Qed.

End ReachMore.

(** ** The properties above on concrete runs *)

(** X5 on a session playing the song, asked to play another window. *)
Lemma startPlayback_restart_witness :
  let fmod := good_engine 44100 48000 0 in
  let s := started fmod 0 44100 in
  currentState s <> STATE_UNINITIALIZED /\
  startPlayback fmod song 100 200 s =
    startPlayback fmod song 100 200 (snd (cleanupResources fmod s)).
Proof.
  cbv zeta. split; [ vm_compute; discriminate | ].
  apply startPlayback_restart. vm_compute. discriminate.
Defined.

Lemma stolen_engine_healthy : healthy stolen_engine.
Proof. repeat split. Qed.

(** X7 on an engine whose channel is stolen, from a negative start frame. *)
Lemma startPlayback_healthy_witness :
  healthy stolen_engine /\ Z.max 0 (-5) < 44100 /\
  fst (startPlayback stolen_engine song (-5) 44100 initial_session) = 0 /\
  currentState (snd (startPlayback stolen_engine song (-5) 44100 initial_session))
    = STATE_PLAYING.
Proof.
  split; [ exact stolen_engine_healthy | ].
  split; [ reflexivity | ].
  apply startPlayback_healthy; [ exact stolen_engine_healthy | reflexivity ].
Defined.

(** X8 on the initial session and the window from frame 10 to frame 5. *)
Lemma startPlayback_empty_window_idle_witness :
  torn_down initial_session /\ 5 <= Z.max 0 10 /\
  startPlayback dead_engine song 10 5 initial_session = (-1, initial_session).
Proof.
  assert (H : torn_down initial_session) by (repeat split).
  split; [ exact H | ]. split; [ simpl; lia | ].
  apply startPlayback_empty_window_idle; [ exact H | simpl; lia ].
Defined.

(** X9 on the first start of the song. *)
Lemma startPlayback_success_script_witness :
  let fmod := good_engine 44100 48000 0 in
  let s' := snd (startPlayback fmod song 0 44100 initial_session) in
  currentState initial_session = STATE_UNINITIALIZED /\
  fst (startPlayback fmod song 0 44100 initial_session) = 0 /\
  exists hi1 lo1 hi2 lo2,
    calls s' =
      [FMOD_System_Update (fmsystem s');
       FMOD_Channel_SetPaused (channel s') 0;
       FMOD_Channel_SetVolume (channel s');
       FMOD_Channel_SetDelay (channel s') hi2 lo2 0;
       FMOD_Channel_SetDelay (channel s') hi1 lo1 1;
       FMOD_System_GetDSPClock (fmsystem s');
       FMOD_System_GetSoftwareFormat (fmsystem s');
       FMOD_System_GetDSPBufferSize (fmsystem s');
       FMOD_System_PlaySound (fmsystem s') (sound s') 1;
       FMOD_Sound_GetDefaults (sound s');
       FMOD_System_CreateSound (fmsystem s') song (soundInfo s');
       FMOD_System_Init (fmsystem s') 32;
       FMOD_System_Create].
Proof.
  cbv zeta.
  assert (H0 : fst (startPlayback (good_engine 44100 48000 0) song 0 44100
                      initial_session) = 0) by (vm_compute; reflexivity).
  split; [ reflexivity | ]. split; [ exact H0 | ].
  destruct (startPlayback_success_script (good_engine 44100 48000 0) song 0 44100
              initial_session eq_refl H0)
    as (hi1 & lo1 & hi2 & lo2 & r2 & b & r4 & hi0 & lo0 & Hcalls & _).
  exists hi1, lo1, hi2, lo2.
  simpl calls in Hcalls at 2. rewrite app_nil_r in Hcalls. exact Hcalls.
Defined.

(** X10 on an engine that cannot schedule the stop: the system and the
    sound it had created are released. *)
Lemma startPlayback_failure_releases_witness :
  let fmod := unscheduled_engine in
  let s' := snd (startPlayback fmod song 0 44100 initial_session) in
  fst (startPlayback fmod song 0 44100 initial_session) <> 0 /\
  exists rest,
    calls s' =
      FMOD_System_Release 1 :: FMOD_System_Close 1
      :: FMOD_Sound_Release 2 :: rest ++ [].
Proof.
  cbv zeta.
  assert (H0 : fst (startPlayback unscheduled_engine song 0 44100
                      initial_session) <> 0) by (vm_compute; discriminate).
  split; [ exact H0 | ].
  destruct (startPlayback_failure_releases unscheduled_engine song 0 44100
              initial_session FMOD_OK 1)
    as (_ & Hsound); try reflexivity; try exact H0.
  - intros H; discriminate H.
  - apply (Hsound FMOD_OK 2); try reflexivity. intros H; discriminate H.
Defined.

(** X11 before any start. *)
Lemma playbackInProgress_idle_witness :
  (state_rank (currentState initial_session) < state_rank STATE_PLAYING \/
   channel initial_session = NULL) /\
  playbackInProgress dead_engine initial_session = (0, initial_session).
Proof.
  assert (H : state_rank (currentState initial_session)
              < state_rank STATE_PLAYING \/ channel initial_session = NULL)
    by (left; reflexivity).
  split; [ exact H | ]. apply playbackInProgress_idle. exact H.
Defined.

(** X12 on a playing session whose channel has finished. *)
Lemma playbackInProgress_query_witness :
  let s := started finished_engine 0 44100 in
  state_rank STATE_PLAYING <= state_rank (currentState s) /\
  channel s <> NULL /\
  fst (playbackInProgress finished_engine s) = 0.
Proof.
  cbv zeta.
  assert (H1 : state_rank STATE_PLAYING
               <= state_rank (currentState (started finished_engine 0 44100)))
    by (vm_compute; discriminate).
  assert (H2 : channel (started finished_engine 0 44100) <> NULL)
    by (vm_compute; discriminate).
  split; [ exact H1 | ]. split; [ exact H2 | ].
  destruct (playbackInProgress_query finished_engine
              (started finished_engine 0 44100) H1 H2) as (_ & Hnone).
  apply Hnone. reflexivity.
Defined.

(** X13 before any start. *)
Lemma streamPosition_silent_witness :
  ~ playing_valid initial_session /\
  fst (streamPosition dead_engine initial_session) = -1 /\
  snd (streamPosition dead_engine initial_session) = initial_session.
Proof.
  assert (H : ~ playing_valid initial_session).
  { intros (Hrank & _). vm_compute in Hrank. apply Hrank. reflexivity. }
  split; [ exact H | ].
  destruct (streamPosition_silent dead_engine initial_session H)
    as (Hr & _ & Hsame).
  split; [ exact Hr | ]. apply Hsame. reflexivity.
Defined.

(** X14 on a session playing the song. *)
Lemma streamPosition_ticks_witness :
  let fmod := good_engine 44100 48000 150 in
  let s := started fmod 100 44100 in
  playing_valid s /\
  calls (snd (streamPosition fmod s)) =
    FMOD_Channel_GetPosition 3 :: FMOD_System_Update 1 :: calls s.
Proof.
  cbv zeta.
  assert (H : playing_valid (started (good_engine 44100 48000 150) 100 44100))
    by (repeat split; vm_compute; discriminate).
  split; [ exact H | ].
  rewrite (streamPosition_ticks (good_engine 44100 48000 150) _ H).
  reflexivity.
Defined.

(** X15 on a session playing the song. *)
Lemma reachable_idle_or_playing_witness :
  let fmod := good_engine 44100 48000 0 in
  engine_contract fmod /\ reachable fmod (started fmod 0 44100) /\
  (torn_down (started fmod 0 44100) \/ playing (started fmod 0 44100)).
Proof.
  cbv zeta. split; [ apply good_engine_contract | ].
  split; [ apply started_reachable | ].
  apply (reachable_idle_or_playing (good_engine 44100 48000 0));
    [ apply good_engine_contract | apply started_reachable ].
Defined.

(** X16 on the song played from frame 100, with the channel at frame 150. *)
Lemma streamPosition_relative_to_seek_witness :
  let fmod := good_engine 44100 48000 150 in
  let s' := snd (startPlayback fmod song 100 44100 initial_session) in
  fst (startPlayback fmod song 100 44100 initial_session) = 0 /\
  initialseekposition (soundInfo s') = 100 /\
  fst (streamPosition fmod s') = 50.
Proof.
  cbv zeta.
  assert (H0 : fst (startPlayback (good_engine 44100 48000 150) song 100 44100
                      initial_session) = 0) by (vm_compute; reflexivity).
  split; [ exact H0 | ].
  destruct (streamPosition_relative_to_seek (good_engine 44100 48000 150)
              song 100 44100 initial_session FMOD_OK (Some 150)
              (good_engine_contract _ _ _) H0 eq_refl eq_refl)
    as (Hseek & _ & Hexact).
  split; [ exact Hseek | ].
  etransitivity; [ apply Hexact; vm_compute; discriminate
                 | vm_compute; reflexivity ].
Defined.

(** X17 on the song played from frame 100, with the channel at frame 150. *)
Lemma stopPlayback_playing_witness :
  let fmod := good_engine 44100 48000 150 in
  let s := started fmod 100 44100 in
  playing s /\
  fst (stopPlayback fmod s) = 50 /\
  streamPosition fmod (snd (stopPlayback fmod s))
    = (-1, snd (stopPlayback fmod s)).
Proof.
  cbv zeta.
  assert (H : playing (started (good_engine 44100 48000 150) 100 44100)).
  { destruct (startPlayback_success_playing_session
                (good_engine 44100 48000 150) song 100 44100 initial_session)
      as (Hp & _);
      [ apply good_engine_contract | vm_compute; reflexivity | exact Hp ]. }
  split; [ exact H | ].
  destruct (stopPlayback_playing (good_engine 44100 48000 150) _ H)
    as (E & Hpos & _).
  split; [ rewrite E; vm_compute; reflexivity | exact Hpos ].
Defined.
